(** * OVH purchase console: a shallow embedding of the front-end sources

    The repository under verification is the TypeScript/React client of the
    OVH server acquisition engine.  Each module below embeds one source
    file: pure helpers become functions, React state becomes a record that
    the handlers transform, and a request to the backend is a value the
    handler returns together with what it does on either outcome. *)

From Stdlib Require Import ZArith NArith Ascii String DecimalString Sorted.
From stdpp Require Import base list gmap.

Local Open Scope Z_scope.

(** ** JavaScript values *)

Module JS.

(** A JavaScript string is a sequence of UTF-16 code units. *)
Definition jsstring : Type := list N.

(** Literals are written in this file as UTF-8 text; [utf8_points] decodes
    the bytes into code points and [utf16_units] encodes a code point as
    one code unit or a surrogate pair. *)
Fixpoint utf8_points (bs : list N) (pending : nat) (acc : N) : list N :=
  match bs with
  | [] => []
  | b :: bs' =>
      match pending with
      | O =>
          if (b <? 0x80)%N then b :: utf8_points bs' 0 0%N
          else if (b <? 0xE0)%N then utf8_points bs' 1 (N.land b 0x1F)
          else if (b <? 0xF0)%N then utf8_points bs' 2 (N.land b 0x0F)
          else utf8_points bs' 3 (N.land b 0x07)
      | S O =>
          N.lor (N.shiftl acc 6) (N.land b 0x3F) :: utf8_points bs' 0 0%N
      | S p =>
          utf8_points bs' p (N.lor (N.shiftl acc 6) (N.land b 0x3F))
      end
  end.

Definition utf16_units (cp : N) : list N :=
  if (cp <? 0x10000)%N then [cp]
  else
    let v := (cp - 0x10000)%N in
    [(0xD800 + N.shiftr v 10)%N; (0xDC00 + N.land v 0x3FF)%N].

Fixpoint bytes_of (s : string) : list N :=
  match s with
  | EmptyString => []
  | String a s' => N_of_ascii a :: bytes_of s'
  end.

Definition js (s : string) : jsstring :=
  concat (map utf16_units (utf8_points (bytes_of s) 0 0%N)).

Definition jsstring_eqb (a b : jsstring) : bool := bool_decide (a = b).

(** A string used as a condition is true when it is not empty; a possibly
    undefined one, when it is defined and not empty. *)
Definition nonempty (s : jsstring) : bool :=
  match s with [] => false | _ => true end.

Definition truthy_string (s : option jsstring) : bool :=
  match s with Some (_ :: _) => true | _ => false end.

(** [String.prototype.startsWith] for a one-unit prefix. *)
Definition startsWith1 (s : jsstring) (c : N) : bool :=
  match s with
  | [] => false
  | d :: _ => (d =? c)%N
  end.

(** ECMAScript WhiteSpace and LineTerminator code points, the characters
    [String.prototype.trim] removes. *)
Definition is_whitespace (c : N) : bool :=
  ((c =? 0x09) || (c =? 0x0A) || (c =? 0x0B) || (c =? 0x0C) || (c =? 0x0D)
   || (c =? 0x20) || (c =? 0xA0) || (c =? 0x1680)
   || ((0x2000 <=? c) && (c <=? 0x200A))
   || (c =? 0x2028) || (c =? 0x2029) || (c =? 0x202F) || (c =? 0x205F)
   || (c =? 0x3000) || (c =? 0xFEFF))%N.

Fixpoint drop_while {A} (p : A -> bool) (l : list A) : list A :=
  match l with
  | [] => []
  | x :: l' => if p x then drop_while p l' else l
  end.

Definition trimStart (s : jsstring) : jsstring := drop_while is_whitespace s.
Definition trimEnd (s : jsstring) : jsstring :=
  rev (drop_while is_whitespace (rev s)).
Definition trim (s : jsstring) : jsstring := trimEnd (trimStart s).

(** [s.split(sep)] for a one-unit separator: never empty, [""] for [""]. *)
Fixpoint split (sep : N) (s : jsstring) : list jsstring :=
  match s with
  | [] => [[]]
  | c :: s' =>
      if (c =? sep)%N then [] :: split sep s'
      else match split sep s' with
           | [] => [[c]]
           | w :: ws => (c :: w) :: ws
           end
  end.

(** [arr.join(sep)]. *)
Fixpoint join (sep : jsstring) (l : list jsstring) : jsstring :=
  match l with
  | [] => []
  | [x] => x
  | x :: l' => x ++ sep ++ join sep l'
  end.

Definition comma : N := 0x2C%N.

(** Decimal text of an integral number, as a template literal prints it. *)
Definition string_of_number (n : Z) : jsstring :=
  js (NilZero.string_of_int (Z.to_int n)).

(** The JSON values the modelled handlers inspect. *)
#[warnings="-register-all"] Inductive jsval : Type :=
| JUndefined
| JNull
| JBool (b : bool)
| JNum (n : Z)
| JStr (s : jsstring)
| JObj (fields : gmap jsstring jsval).

Definition is_nullish (v : jsval) : bool :=
  match v with JUndefined | JNull => true | _ => false end.

(** Truthiness, as [||], [&&], [?:] and [if] see it. *)
Definition truthy (v : jsval) : bool :=
  match v with
  | JUndefined | JNull => false
  | JBool b => b
  | JNum n => negb (n =? 0)
  | JStr s => match s with [] => false | _ => true end
  | JObj _ => true
  end.

(** [a || b]. *)
Definition or_else (a b : jsval) : jsval := if truthy a then a else b.

(** Property read [v.f]: a TypeError ([None]) on undefined and null. *)
Definition member (v : jsval) (f : jsstring) : option jsval :=
  match v with
  | JUndefined | JNull => None
  | JObj fields => Some (default JUndefined (fields !! f))
  | _ => Some JUndefined
  end.

(** Optional chaining [v?.f]. *)
Definition opt_member (v : jsval) (f : jsstring) : jsval :=
  default JUndefined (member v f).

(** Text React renders for a child expression [{v}]; objects are not
    valid children ([None]). *)
Definition render_child (v : jsval) : option jsstring :=
  match v with
  | JUndefined | JNull | JBool _ => Some []
  | JNum n => Some (string_of_number n)
  | JStr s => Some s
  | JObj _ => None
  end.

(** A [Map] keeps its keys in insertion order; [set] on a present key
    replaces the value where it stands. *)
Section InsertionOrderedMap.
Context {V : Type}.

Fixpoint Map_get (k : jsstring) (m : list (jsstring * V)) : option V :=
  match m with
  | [] => None
  | (k', v) :: m' => if jsstring_eqb k' k then Some v else Map_get k m'
  end.

Definition Map_has (k : jsstring) (m : list (jsstring * V)) : bool :=
  match Map_get k m with Some _ => true | None => false end.

Fixpoint Map_set (k : jsstring) (v : V) (m : list (jsstring * V))
  : list (jsstring * V) :=
  match m with
  | [] => [(k, v)]
  | (k', v') :: m' =>
      if jsstring_eqb k' k then (k', v) :: m'
      else (k', v') :: Map_set k v m'
  end.
End InsertionOrderedMap.

(** [Array.prototype.sort(compare)].  The sort is stable, a comparator
    result that is NaN ([None]) counts as [+0], and [a] is moved behind
    [b] only when [compare(a, b) > 0].  For a comparator that is a
    consistent ordering this fixes the result, computed here by
    insertion. *)
Section ArraySort.
Context {A : Type} (compare : A -> A -> option Z).

Definition sorts_after (a b : A) : bool :=
  match compare a b with
  | Some v => 0 <? v
  | None => false
  end.

Fixpoint sort_insert (x : A) (l : list A) : list A :=
  match l with
  | [] => [x]
  | y :: l' => if sorts_after x y then y :: sort_insert x l' else x :: l
  end.

Fixpoint sort (l : list A) : list A :=
  match l with
  | [] => []
  | x :: l' => sort_insert x (sort l')
  end.
End ArraySort.


(** [s.startsWith(t)] and [s.includes(t)] on strings. *)
Fixpoint startsWith (s t : jsstring) : bool :=
  match t, s with
  | [], _ => true
  | _ :: _, [] => false
  | c :: t', d :: s' => (d =? c)%N && startsWith s' t'
  end.

Fixpoint includes (s t : jsstring) : bool :=
  startsWith s t
  || match s with
     | [] => false
     | _ :: s' => includes s' t
     end.

(** [arr.includes(x)] and [arr.indexOf(x)] on arrays of strings; [None] is
    the index [-1]. *)
Definition array_includes (l : list jsstring) (x : jsstring) : bool :=
  bool_decide (x ∈ l).

Fixpoint indexOf (l : list jsstring) (x : jsstring) : option nat :=
  match l with
  | [] => None
  | y :: l' => if jsstring_eqb y x then Some 0%nat
               else S <$> indexOf l' x
  end.

(** [Array.from(new Set(l))]: a [Set] keeps each value where it was first
    added. *)
Definition Set_add (seen : list jsstring) (x : jsstring) : list jsstring :=
  if array_includes seen x then seen else seen ++ [x].

Definition Set_values (l : list jsstring) : list jsstring :=
  fold_left Set_add l [].

(** [arr.splice(i, 1)] and [arr.splice(i, 0, x)] on a copy. *)
Definition splice_out {A} (i : nat) (l : list A) : list A := delete i l.

Definition splice_in {A} (i : nat) (x : A) (l : list A) : list A :=
  take i l ++ x :: drop i l.

End JS.

Import JS.
Arguments js s%_string.

(** ** Global constants and helpers of the client *)

Module Constants.

Definition TASK_RETRY_INTERVAL : Z := 30.
Definition MIN_RETRY_INTERVAL : Z := 15.
Definition MAX_RETRY_INTERVAL : Z := 3600.
Definition MAX_RETRIES : Z := -1.

(** What the module initialiser of [API_URL] can observe: whether
    [import.meta] exists and what its [env.VITE_API_URL] holds, and
    whether there is a [window] and what its location is. *)
Record Location := { origin : jsstring; hostname : jsstring }.

Record Env := {
  import_meta : option (option (option jsstring));
    (* import.meta?  .env?  .VITE_API_URL? *)
  window : option Location
}.

(** [metaEnv?.VITE_API_URL] *)
Definition envUrl_of (e : Env) : option jsstring :=
  match import_meta e with
  | Some (Some v) => v
  | _ => None
  end.

Definition window_origin (e : Env) : jsstring :=
  match window e with Some w => origin w | None => [] end.

Definition window_hostname (e : Env) : jsstring :=
  match window e with Some w => hostname w | None => [] end.

Definition API_URL (e : Env) : jsstring :=
  let envUrl := envUrl_of e in
  if truthy_string envUrl then
    let envUrl := default [] envUrl in
    if startsWith1 envUrl 0x2F%N then
      let origin := window_origin e in
      if nonempty origin then origin ++ envUrl else envUrl
    else envUrl
  else
    let hostname := window_hostname e in
    if jsstring_eqb hostname (js "localhost")
       || jsstring_eqb hostname (js "127.0.0.1")
    then js "http://localhost:19998/api"
    else
      let origin := window_origin e in
      if nonempty origin then origin ++ js "/api" else js "/api".

Definition validateRetryInterval (interval : Z) : bool :=
  (interval >=? MIN_RETRY_INTERVAL) && (interval <=? MAX_RETRY_INTERVAL).


(** [Number.MAX_SAFE_INTEGER]. *)
Definition MAX_SAFE_INTEGER : Z := 2 ^ 53 - 1.

Definition isSafeInteger (n : Z) : bool :=
  (- MAX_SAFE_INTEGER <=? n) && (n <=? MAX_SAFE_INTEGER).

(** [formatInterval], for a whole number of seconds that is a safe
    integer; any other argument is outside the embedding ([None]).  The
    source computes on doubles.  On a safe integer [%] is exact, and the
    quotients by 60 and by 3600 stay below 2^48 and 2^42, where doubles
    are spaced by at most 1/32 and 1/2048; the exact quotient is a whole
    number or falls short of the next one by at least 1/60 or 1/3600,
    which is more than half that spacing, so rounding never reaches the
    next whole number and [Math.floor] of the rounded quotient is the
    quotient rounded down.  Beyond the safe integers this fails, and from
    1e21 on a number prints with an exponent. *)
Definition formatInterval (seconds : Z) : option jsstring :=
  if negb (isSafeInteger seconds) then None
  else if seconds <? 60 then Some (string_of_number seconds ++ js "秒")
  else if seconds <? 3600 then
    let minutes := seconds / 60 in
    let remainingSeconds := Z.rem seconds 60 in
    if 0 <? remainingSeconds
    then Some (string_of_number minutes ++ js "分"
               ++ string_of_number remainingSeconds ++ js "秒")
    else Some (string_of_number minutes ++ js "分钟")
  else
    let hours := seconds / 3600 in
    let minutes := Z.rem seconds 3600 / 60 in
    if 0 <? minutes
    then Some (string_of_number hours ++ js "小时"
               ++ string_of_number minutes ++ js "分钟")
    else Some (string_of_number hours ++ js "小时").

Definition formatRetryCount (count maxRetries : Z) : jsstring :=
  if maxRetries =? -1
  then js "第 " ++ string_of_number count ++ js " 次尝试"
  else js "第 " ++ string_of_number count ++ js "/"
       ++ string_of_number maxRetries ++ js " 次尝试".

End Constants.

(** ** [@/config/ovhConstants] *)

Module OvhConstants.

Record DatacenterInfo := {
  code : jsstring;
  name : jsstring;
  region : jsstring;
  flag : jsstring;
  countryCode : jsstring
}.

Definition dc (c n r f cc : string) : DatacenterInfo :=
  {| code := js c; name := js n; region := js r; flag := js f;
     countryCode := js cc |}.

Definition OVH_DATACENTERS : list DatacenterInfo := [
  dc "gra" "格拉夫尼茨" "法国" "🇫🇷" "fr";
  dc "sbg" "斯特拉斯堡" "法国" "🇫🇷" "fr";
  dc "rbx" "鲁贝" "法国" "🇫🇷" "fr";
  dc "bhs" "博阿尔诺" "加拿大" "🇨🇦" "ca";
  dc "mum" "孟买" "印度" "🇮🇳" "in";
  dc "waw" "华沙" "波兰" "🇵🇱" "pl";
  dc "fra" "法兰克福" "德国" "🇩🇪" "de";
  dc "lon" "伦敦" "英国" "🇬🇧" "gb";
  dc "hil" "俄勒冈" "美国西部" "🇺🇸" "us";
  dc "vin" "弗吉尼亚" "美国东部" "🇺🇸" "us";
  dc "sgp" "新加坡" "新加坡" "🇸🇬" "sg";
  dc "syd" "悉尼" "澳大利亚" "🇦🇺" "au"
].

End OvhConstants.

(** ** [@/utils/apiClient] as the pages use it *)

Module Api.

Inductive Method := GET | POST | PUT | DELETE.

(** A call [api.<method>(url, data?, { params })].  [params] is kept as
    written by the caller, undefined entries included. *)
Record Request (B : Type) := {
  method : Method;
  url : jsstring;
  params : list (jsstring * jsval);
  data : option B
}.
Arguments method {B} _.
Arguments url {B} _.
Arguments params {B} _.
Arguments data {B} _.

Definition get (u : jsstring) (ps : list (jsstring * jsval)) : Request unit :=
  {| method := GET; url := u; params := ps; data := None |}.

(** The query the HTTP client puts on the wire: parameters whose value is
    undefined or null are left out. *)
Definition query {B} (r : Request B) : list (jsstring * jsval) :=
  List.filter (fun kv => negb (is_nullish (snd kv))) (params r).

(** How an awaited call ends: the promise resolves with a response or
    rejects with whatever was thrown. *)
Inductive Outcome :=
| Resolved (response : jsval)
| Rejected (error : jsval).

(** A toast raised through [sonner] or the page's toast container. *)
Inductive ToastKind := Success | Error | Warning | Info.

Record Toast := {
  kind : ToastKind;
  title : jsval;
  message : option jsval
}.

(** An object literal. *)
Definition obj (fields : list (jsstring * jsval)) : jsval :=
  JObj (list_to_map fields).

End Api.

Import Api.

(** ** [src/pages/VPSMonitorPage.tsx] *)

Module VPSMonitorPage.

Record VPSSubscription := {
  id : jsstring;
  planCode : jsstring;
  ovhSubsidiary : jsstring;
  datacenters : list jsstring;
  monitorLinux : bool;
  monitorWindows : bool;
  notifyAvailable : bool;
  notifyUnavailable : bool
}.

Record FormData := {
  form_vpsModel : jsstring;
  form_ovhSubsidiary : jsstring;
  form_datacenters : jsstring;
  form_notifyAvailable : bool;
  form_notifyUnavailable : bool
}.

(** Body of [POST /vps-monitor/subscriptions]. *)
Record SubscriptionBody := {
  body_planCode : jsstring;
  body_ovhSubsidiary : jsstring;
  body_datacenters : list jsstring;
  body_monitorLinux : bool;
  body_monitorWindows : bool;
  body_notifyAvailable : bool;
  body_notifyUnavailable : bool
}.

(** The component state the modelled handlers read and write.
    [monitorStatus] holds whatever [response.data] was: the declared
    interface is not checked at run time. *)
Record Page := {
  monitorStatus : jsval;
  formData : FormData;
  showAddForm : bool
}.

Definition vpsModels : list (jsstring * jsstring) := [
  (js "vps-2025-model1", js "VPS-1");
  (js "vps-2025-model2", js "VPS-2");
  (js "vps-2025-model3", js "VPS-3");
  (js "vps-2025-model4", js "VPS-4");
  (js "vps-2025-model5", js "VPS-5");
  (js "vps-2025-model6", js "VPS-6")
].

Definition initial_monitorStatus : jsval :=
  obj [(js "running", JBool false);
       (js "subscriptions_count", JNum 0);
       (js "check_interval", JNum 60)].

Definition initial_formData : FormData := {|
  form_vpsModel := js "vps-2025-model1";
  form_ovhSubsidiary := js "IE";
  form_datacenters := [];
  form_notifyAvailable := true;
  form_notifyUnavailable := false
|}.

Definition initial : Page := {|
  monitorStatus := initial_monitorStatus;
  formData := initial_formData;
  showAddForm := false
|}.

Definition status_request : Request unit := get (js "/vps-monitor/status") [].

(** [loadMonitorStatus]: a resolved call stores [response.data]; a
    rejection, or a throw while reading the response, is only logged. *)
Definition loadMonitorStatus (st : Page) (reply : Outcome) : Page :=
  match reply with
  | Resolved response =>
      match member response (js "data") with
      | Some d => {| monitorStatus := d; formData := formData st;
                     showAddForm := showAddForm st |}
      | None => st
      end
  | Rejected _ => st
  end.

(** [formData.datacenters.split(',').map(dc => dc.trim()).filter(dc => dc)] *)
Definition parse_datacenters (input : jsstring) : list jsstring :=
  filter (fun dc => nonempty dc = true)
         (map trim (split comma input)).

(** [vpsModels.find(m => m.value === v)?.label || v] *)
Definition model_label (v : jsstring) : jsstring :=
  match List.find (fun m => jsstring_eqb (fst m) v) vpsModels with
  | Some (_, (_ :: _) as l) => l
  | _ => v
  end.

Definition subscription_request (f : FormData) : Request SubscriptionBody :=
  let datacenters := parse_datacenters (form_datacenters f) in
  {| method := POST;
     url := js "/vps-monitor/subscriptions";
     params := [];
     data := Some {|
       body_planCode := form_vpsModel f;
       body_ovhSubsidiary := form_ovhSubsidiary f;
       body_datacenters :=
         if (0 <? length datacenters)%nat then datacenters else [];
       body_monitorLinux := true;
       body_monitorWindows := true;
       body_notifyAvailable := form_notifyAvailable f;
       body_notifyUnavailable := form_notifyUnavailable f |} |}.

(** [error.response?.data?.message || fallback]; reading [.response] of
    an undefined or null error throws ([None]). *)
Definition error_message (error : jsval) (fallback : jsstring) : option jsval :=
  response ← member error (js "response");
  Some (or_else (opt_member (opt_member response (js "data")) (js "message"))
                (JStr fallback)).

Record Handled := {
  sent : Request SubscriptionBody;
  page : Page;
  toasts : list Toast;
  reloads : list (Request unit)
}.

(** [handleAddSubscription]: builds and posts the body; on success it
    toasts, resets the form, hides it and reloads list and status; on
    failure it toasts the error text and leaves the state alone. *)
Definition handleAddSubscription (st : Page) (reply : Outcome) : Handled :=
  let req := subscription_request (formData st) in
  match reply with
  | Resolved _ =>
      {| sent := req;
         page := {| monitorStatus := monitorStatus st;
                    formData := initial_formData;
                    showAddForm := false |};
         toasts := [ {| kind := Success;
                        title := JStr (js "已订阅 "
                                       ++ model_label (form_vpsModel (formData st)));
                        message := None |} ];
         reloads := [ get (js "/vps-monitor/subscriptions") [];
                      status_request ] |}
  | Rejected error =>
      {| sent := req;
         page := st;
         toasts := match error_message error (js "订阅失败") with
                   | Some errorMsg =>
                       [ {| kind := Error; title := errorMsg; message := None |} ]
                   | None => []
                   end;
         reloads := [] |}
  end.

(** [toggleMonitor]: posts stop or start by the current status; the
    failure branch reads the same field as [handleAddSubscription]. *)
Definition toggle_request (st : Page) : option (Request unit) :=
  running ← member (monitorStatus st) (js "running");
  Some {| method := POST;
          url := if truthy running then js "/vps-monitor/stop"
                 else js "/vps-monitor/start";
          params := []; data := None |}.

Definition toggleMonitor_failure (error : jsval) : list Toast :=
  match error_message error (js "操作失败") with
  | Some errorMsg => [ {| kind := Error; title := errorMsg; message := None |} ]
  | None => []
  end.

(** The two statistics cells: [{monitorStatus.subscriptions_count}] and
    [{monitorStatus.check_interval}s]. *)
Definition subscriptions_cell (ms : jsval) : option jsstring :=
  member ms (js "subscriptions_count") ≫= render_child.

Definition interval_cell (ms : jsval) : option jsstring :=
  t ← member ms (js "check_interval") ≫= render_child;
  Some (t ++ js "s").

(** The indicator shows running when [monitorStatus.running] is truthy. *)
Definition running_shown (ms : jsval) : option bool :=
  truthy <$> member ms (js "running").

(** The line under a subscription's title. *)
Definition datacenters_line (sub : VPSSubscription) : jsstring :=
  if (0 <? length (datacenters sub))%nat
  then js "监控数据中心: " ++ join (js ", ") (datacenters sub)
  else js "监控所有数据中心".


(** The change history of a subscription, as the page keeps it. *)
Record HistoryEntry := {
  entry_timestamp : jsstring;
  entry_datacenter : jsstring;
  entry_changeType : jsstring
}.

(** [expandedHistory] and [historyData]; a stored [None] is a stored
    [undefined]. *)
Record HistoryPanel := {
  expandedHistory : option jsstring;
  historyData : gmap jsstring (option (list HistoryEntry))
}.

(** How [GET /vps-monitor/subscriptions/{id}/history] ends for
    [loadHistory].  [NoHistory]: the request is rejected, which the
    [catch] block handles.  Otherwise it resolves, and
    [response.data.history] is read later, inside the updater passed to
    [setHistoryData], when the [try] block has been left.
    [GotHistory h]: [data] is an object and [h] its [history] field
    (absent: [None]).  [NoData]: [data] is undefined or null, so the read
    throws a TypeError from the updater, where nothing catches it. *)
Inductive HistoryOutcome :=
| GotHistory (history : option (list HistoryEntry))
| NoHistory
| NoData.

Definition history_request (subscriptionId : jsstring) : Request unit :=
  get (js "/vps-monitor/subscriptions/" ++ subscriptionId ++ js "/history") [].

(** [history_thrown]: an error left the handler's updater uncaught. *)
Record HistoryHandled := {
  panel : HistoryPanel;
  history_sent : list (Request unit);
  history_toasts : list Toast;
  history_thrown : bool
}.

(** [historyData[id]] as a condition: an array is true even when empty. *)
Definition has_history (p : HistoryPanel) (subscriptionId : jsstring) : bool :=
  match historyData p !! subscriptionId with
  | Some (Some _) => true
  | _ => false
  end.

Definition loadHistory (p : HistoryPanel) (subscriptionId : jsstring)
                       (reply : HistoryOutcome) : HistoryHandled :=
  match reply with
  | GotHistory h =>
      {| panel := {| expandedHistory := expandedHistory p;
                     historyData := <[subscriptionId := h]> (historyData p) |};
         history_sent := [history_request subscriptionId];
         history_toasts := [];
         history_thrown := false |}
  | NoHistory =>
      {| panel := p;
         history_sent := [history_request subscriptionId];
         history_toasts := [ {| kind := Error;
                                title := JStr (js "加载历史记录失败");
                                message := None |} ];
         history_thrown := false |}
  | NoData =>
      {| panel := p;
         history_sent := [history_request subscriptionId];
         history_toasts := [];
         history_thrown := true |}
  end.

Definition toggleHistory (p : HistoryPanel) (subscriptionId : jsstring)
                         (reply : HistoryOutcome) : HistoryHandled :=
  if bool_decide (expandedHistory p = Some subscriptionId) then
    {| panel := {| expandedHistory := None; historyData := historyData p |};
       history_sent := []; history_toasts := []; history_thrown := false |}
  else
    let opened := {| expandedHistory := Some subscriptionId;
                     historyData := historyData p |} in
    if has_history p subscriptionId then
      {| panel := opened; history_sent := []; history_toasts := [];
         history_thrown := false |}
    else loadHistory opened subscriptionId reply.

(** What the history area of a subscription card shows: nothing when the
    card is not expanded, the entries when there are some, and the "no
    history" text otherwise ([historyData[sub.id]?.length > 0]). *)
Inductive HistoryArea :=
| Collapsed
| Entries (l : list HistoryEntry)
| NoEntries.

Definition history_area (p : HistoryPanel) (subscriptionId : jsstring)
  : HistoryArea :=
  if bool_decide (expandedHistory p = Some subscriptionId) then
    match historyData p !! subscriptionId with
    | Some (Some ((_ :: _) as l)) => Entries l
    | _ => NoEntries
    end
  else Collapsed.

End VPSMonitorPage.

(** ** The [Dashboard] component *)

Module Dashboard.

Record QueueItem := {
  id : jsstring;
  planCode : jsstring;
  status : jsstring;
  retryCount : Z;
  retryInterval : Z;
  accountId : option jsstring
}.

Definition stats_request : Request unit := get (js "/stats") [].
Definition queue_request : Request unit := get (js "/queue/all") [].

(** [fetchData] issues both calls together. *)
Definition fetchData_requests : list (Request unit) :=
  [stats_request; queue_request].

(** The active items shown: running, pending or paused, at most three. *)
Definition activeItems (data : list QueueItem) : list QueueItem :=
  take 3 (filter (fun item =>
                    status item ∈ [js "running"; js "pending"; js "paused"])
                 data).


(** [getAccountLabel]; an account is whatever the context holds. *)
Definition has_id (id : jsstring) (a : jsval) : bool :=
  match opt_member a (js "id") with
  | JStr s => jsstring_eqb s id
  | _ => false
  end.

Definition getAccountLabel (accounts : list jsval) (id : option jsstring)
  : jsval :=
  if truthy_string id then
    let id := default [] id in
    let acc := default JUndefined (List.find (has_id id) accounts) in
    or_else (opt_member acc (js "alias")) (JStr id)
  else JStr (js "默认账户").

End Dashboard.

(** ** The [QueuePage] component: fetching the queue *)

Module QueuePage.

(** [scopeOverride !== undefined ? scopeOverride : scopeAll] *)
Definition useScopeAll (scopeOverride : option bool) (scopeAll : bool) : bool :=
  match scopeOverride with
  | Some b => b
  | None => scopeAll
  end.

(** The first call of [fetchQueueItems]. *)
Definition queue_request (scopeOverride : option bool) (scopeAll : bool)
  : Request unit :=
  get (js "/queue")
      [(js "scope",
        if useScopeAll scopeOverride scopeAll then JStr (js "all")
        else JUndefined)].


(** What [addQueueItem] reads of the form. *)
Record Form := {
  planCodeInput : jsstring;
  selectedDatacenters : list jsstring;
  retryInterval : Z;
  quantity : Z;
  selectedOptions : list jsstring;
  optionsInput : jsstring;
  autoPay : bool;
  selectedAccountId : jsstring;
  editingItemId : option jsstring;
  showAddForm : bool
}.

(** Body of [POST /queue] and [PUT /queue/{id}]. *)
Record TaskBody := {
  body_planCode : jsstring;
  body_datacenters : list jsstring;
  body_retryInterval : Z;
  body_options : list jsstring;
  body_quantity : Z;
  body_auto_pay : bool;
  body_accountId : option jsstring
}.

Definition task_body (f : Form) : TaskBody :=
  {| body_planCode := trim (planCodeInput f);
     body_datacenters := selectedDatacenters f;
     body_retryInterval := retryInterval f;
     body_options := selectedOptions f;
     body_quantity := quantity f;
     body_auto_pay := autoPay f;
     body_accountId := match selectedAccountId f with
                       | [] => None
                       | a => Some a
                       end |}.

Record Submitted := {
  sent : option (Request TaskBody);
  form : Form;
  toasts : list Toast
}.

Definition refused (f : Form) (text : jsstring) : Submitted :=
  {| sent := None; form := f;
     toasts := [ {| kind := Error; title := JStr text; message := None |} ] |}.

(** The form once a task has been created: everything but the account,
    the edit marker and the visibility of the form goes back to its
    default. *)
Definition cleared (f : Form) : Form :=
  {| planCodeInput := [];
     selectedDatacenters := [];
     retryInterval := Constants.TASK_RETRY_INTERVAL;
     quantity := 1;
     selectedOptions := [];
     optionsInput := [];
     autoPay := false;
     selectedAccountId := selectedAccountId f;
     editingItemId := editingItemId f;
     showAddForm := showAddForm f |}.

Definition addQueueItem (f : Form) (reply : Outcome) : Submitted :=
  if negb (nonempty (trim (planCodeInput f)))
     || bool_decide (length (selectedDatacenters f) = 0%nat)
  then refused f (js "请输入服务器计划代码并至少选择一个数据中心")
  else if (quantity f <? 1) || (100 <? quantity f)
  then refused f (js "抢购数量必须在 1-100 之间")
  else if retryInterval f <=? 0
  then refused f (js "重试间隔必须大于 0 秒")
  else
    let req := {| method := POST; url := js "/queue"; params := [];
                  data := Some (task_body f) |} in
    match reply with
    | Resolved _ =>
        {| sent := Some req; form := cleared f;
           toasts := [ {| kind := Success;
                          title := JStr (js "已创建抢购任务，目标 "
                                         ++ string_of_number (quantity f)
                                         ++ js " 台");
                          message := None |} ] |}
    | Rejected _ =>
        {| sent := Some req; form := f;
           toasts := [ {| kind := Error; title := JStr (js "添加到队列失败");
                          message := None |} ] |}
    end.

(** The notes rendered under the interval field of the form: a warning
    for an interval above 0 and below [MIN_RETRY_INTERVAL], an error for
    an interval that is not above 0. *)
Definition interval_notes (retryInterval : Z) : list jsstring :=
  (if (0 <? retryInterval) && (retryInterval <? Constants.MIN_RETRY_INTERVAL)
   then [js "⚠️ 间隔时间过短可能导致API过载，建议设置为 "
         ++ string_of_number Constants.TASK_RETRY_INTERVAL
         ++ js " 秒或更长"]
   else [])
  ++ (if retryInterval <=? 0 then [js "⚠️ 重试间隔必须大于 0"] else []).

(** The fields of a queue item [beginEditQueueItem] looks at; [None] is a
    missing field (or, for the lists, a value that is not an array). *)
Record EditedItem := {
  item_id : jsstring;
  item_planCode : option jsstring;
  item_accountId : option jsstring;
  item_retryInterval : option Z;
  item_quantity : option Z;
  item_options : option (list jsstring);
  item_auto_pay : option bool;
  item_datacenters : option (list jsstring)
}.

(** [n || d] on a number that may be missing. *)
Definition number_or (n : option Z) (d : Z) : Z :=
  match n with
  | Some v => if v =? 0 then d else v
  | None => d
  end.

(** The state [beginEditQueueItem] sets at once; the datacenters follow
    from a timer, see [beginEdit_datacenters]. *)
Definition beginEditQueueItem (f : Form) (item : EditedItem) : Form :=
  let options := default [] (item_options item) in
  {| planCodeInput := default [] (item_planCode item);
     selectedDatacenters := selectedDatacenters f;
     retryInterval := number_or (item_retryInterval item)
                                Constants.TASK_RETRY_INTERVAL;
     quantity := Z.min (Z.max (number_or (item_quantity item) 1) 1) 100;
     selectedOptions := options;
     optionsInput := join (js ", ") options;
     autoPay := default false (item_auto_pay item);
     selectedAccountId := default [] (item_accountId item);
     editingItemId := Some (item_id item);
     showAddForm := true |}.

Definition beginEdit_datacenters (item : EditedItem) (prev : list jsstring)
  : list jsstring :=
  default prev (item_datacenters item).

(** [updateQueueItem]: nothing without an item under edit; otherwise the
    same first check as [addQueueItem], and no other. *)
Definition updateQueueItem (f : Form) : option (option (Request TaskBody)) :=
  match editingItemId f with
  | None => None
  | Some ((_ :: _) as i) =>
      if negb (nonempty (trim (planCodeInput f)))
         || bool_decide (length (selectedDatacenters f) = 0%nat)
      then Some None
      else Some (Some {| method := PUT; url := js "/queue/" ++ i; params := [];
                         data := Some (task_body f) |})
  | Some [] => None
  end.

(** [toggleQueueItemStatus]: the status asked for and the word used in the
    toast. *)
Definition next_status (currentStatus : jsstring) : jsstring * jsstring :=
  if jsstring_eqb currentStatus (js "running") then (js "paused", js "暂停")
  else if jsstring_eqb currentStatus (js "paused") then (js "running", js "恢复")
  else (js "running", js "启动").

Definition status_request (i currentStatus : jsstring) : Request jsstring :=
  {| method := PUT; url := js "/queue/" ++ i ++ js "/status"; params := [];
     data := Some (fst (next_status currentStatus)) |}.

(** The updater of [handleDatacenterChange]. *)
Definition handleDatacenterChange (dcCode : jsstring) (prev : list jsstring)
  : list jsstring :=
  if array_includes prev dcCode
  then filter (fun d => d <> dcCode) prev
  else prev ++ [dcCode].

(** [selectAllDatacenters]. *)
Definition selectAllDatacenters (visibleDatacenters : option (list jsstring))
  : list jsstring :=
  let base := match visibleDatacenters with
              | Some ((_ :: _) as v) => v
              | _ => map OvhConstants.code OvhConstants.OVH_DATACENTERS
              end in
  Set_values base.

(** The updater run while a selected datacenter is dragged over another. *)
Definition drag_over (draggingDc dc : jsstring) (prev : list jsstring)
  : list jsstring :=
  match indexOf prev draggingDc, indexOf prev dc with
  | Some from, Some to => splice_in to draggingDc (splice_out from prev)
  | _, _ => prev
  end.

Definition onDragOver (draggingDc : option jsstring) (dc : jsstring)
                      (prev : list jsstring) : list jsstring :=
  match draggingDc with
  | Some ((_ :: _) as d) => if jsstring_eqb d dc then prev else drag_over d dc prev
  | _ => prev
  end.

Definition DATACENTER_REGIONS : list (jsstring * list jsstring) := [
  (js "欧洲", [js "gra"; js "sbg"; js "rbx"; js "waw"; js "fra"; js "lon"]);
  (js "北美", [js "bhs"; js "hil"; js "vin"]);
  (js "亚太", [js "sgp"; js "syd"; js "mum"])
].

(** The region blocks of the datacenter picker: a region with nothing
    visible is not rendered. *)
Definition region_blocks (visibleDatacenters : option (list jsstring))
  : list (jsstring * list jsstring) :=
  List.filter (fun block => negb (bool_decide (length (snd block) = 0%nat)))
    (map (fun rd =>
            (fst rd,
             List.filter (array_includes (default [] visibleDatacenters))
                         (snd rd)))
         DATACENTER_REGIONS).

(** [updateOptionsFromInput] and the effect that writes the selection back
    into the input. *)
Definition updateOptionsFromInput (optionsInput : jsstring) : list jsstring :=
  filter (fun v => nonempty v = true) (map trim (split comma optionsInput)).

Definition options_text (selectedOptions : list jsstring) : jsstring :=
  join (js ", ") selectedOptions.

Record ServerOption := {
  label : jsstring;
  value : jsstring;
  family : option jsstring;
  isDefault : option bool
}.

(** A catalogue entry, as far as the page reads it: the [datacenter] field
    of each datacenter row, which may be missing. *)
Record ServerPlan := {
  plan_planCode : jsstring;
  plan_datacenters : list (option jsstring);
  defaultOptions : option (list ServerOption);
  availableOptions : option (list ServerOption)
}.

Section Lowercase.
(** [String.prototype.toLowerCase] is the platform's. *)
Variable toLowerCase : jsstring -> jsstring.

(** The datacenters offered for the plan typed in: lower-cased, [ynm]
    renamed [mum], restricted to the known codes, each once. *)
Definition visible_datacenters (server : ServerPlan) : list jsstring :=
  let dcList :=
    omap (fun d => match d with
                   | Some ((_ :: _) as c) => Some c
                   | _ => None
                   end)
         (map (fun d => if bool_decide (d = Some (js "ynm"))
                        then Some (js "mum") else d)
              (map (fun d => toLowerCase <$> d) (plan_datacenters server))) in
  let validDcs := map OvhConstants.code OvhConstants.OVH_DATACENTERS in
  let filtered := List.filter (array_includes validDcs) dcList in
  Set_values filtered.

Definition filterHardwareOptions (opts : option (list ServerOption))
  : list ServerOption :=
  match opts with
  | None => []
  | Some opts =>
      List.filter (fun option =>
        let optionValue := toLowerCase (value option) in
        let optionLabel := toLowerCase (label option) in
        negb (includes optionValue (js "windows-server")
              || includes optionValue (js "sql-server")
              || includes optionValue (js "cpanel-license")
              || includes optionValue (js "plesk-")
              || includes optionValue (js "-license-")
              || startsWith optionValue (js "os-")
              || includes optionValue (js "control-panel")
              || includes optionValue (js "panel")
              || includes optionLabel (js "license")
              || includes optionLabel (js "许可证")
              || includes optionLabel (js "许可")
              || includes optionValue (js "security")
              || includes optionValue (js "antivirus")
              || includes optionValue (js "firewall"))) opts
  end.

Definition group_names : list jsstring :=
  [js "CPU/处理器"; js "内存"; js "存储"; js "带宽/网络"; js "vRack内网";
   js "其他"].

(** The group [buildOptionGroups] puts an option in. *)
Definition option_group (option : ServerOption) : jsstring :=
  let family := default [] (toLowerCase <$> family option) in
  let desc := toLowerCase (label option) in
  let value := toLowerCase (value option) in
  if includes family (js "cpu") || includes family (js "processor")
     || includes desc (js "cpu") || includes desc (js "processor")
     || includes desc (js "intel") || includes desc (js "amd")
     || includes desc (js "xeon") || includes desc (js "epyc")
     || includes desc (js "ryzen") || includes desc (js "core")
  then js "CPU/处理器"
  else if includes family (js "memory") || includes family (js "ram")
          || includes desc (js "ram") || includes desc (js "memory")
          || includes desc (js "gb") || includes desc (js "ddr")
  then js "内存"
  else if includes family (js "storage") || includes family (js "disk")
          || includes desc (js "ssd") || includes desc (js "hdd")
          || includes desc (js "nvme") || includes desc (js "storage")
          || includes desc (js "disk") || includes desc (js "raid")
  then js "存储"
  else if includes value (js "vrack") || includes desc (js "vrack")
          || includes desc (js "内网") || includes family (js "vrack")
  then js "vRack内网"
  else if includes family (js "bandwidth") || includes family (js "traffic")
          || includes desc (js "bandwidth") || includes desc (js "network")
          || includes desc (js "ip") || includes desc (js "带宽")
          || includes desc (js "mbps") || includes desc (js "gbps")
  then js "带宽/网络"
  else js "其他".

Definition push_option (groups : list (jsstring * list ServerOption))
                       (option : ServerOption)
  : list (jsstring * list ServerOption) :=
  let g := option_group option in
  Map_set g (default [] (Map_get g groups) ++ [option]) groups.

Definition buildOptionGroups (opts : list ServerOption)
  : list (jsstring * list ServerOption) :=
  fold_left push_option opts (map (fun g => (g, [])) group_names).

(** The updater of [toggleOptionValue]. *)
Definition toggleOptionValue (selectedServer : option ServerPlan)
                             (optionValue : jsstring)
                             (groupName : option jsstring)
                             (prev : list jsstring) : list jsstring :=
  match indexOf prev optionValue with
  | Some index => splice_out index prev
  | None =>
      let currentOptions :=
        match groupName, selectedServer with
        | Some ((_ :: _) as g), Some server =>
            let grouped :=
              buildOptionGroups
                (filterHardwareOptions
                   (Some (default [] (availableOptions server)))) in
            let sameGroup := default [] (Map_get g grouped) in
            let sameGroupValues := map value sameGroup in
            List.filter (fun v => negb (array_includes sameGroupValues v)) prev
        | _, _ => prev
        end in
      currentOptions ++ [optionValue]
  end.
End Lowercase.

End QueuePage.

(** ** The control plane behind the client *)

Module ControlPlane.

(** Modelled from the spec: the backend that reads [PORT] is not among
    the sources; section 6 gives its default listen port. *)
Definition DEFAULT_PORT : Z := 19998.

Record QueueTask := {
  task_id : jsstring;
  task_accountId : jsstring
}.

(** Modelled from the spec: the backend handler of [GET /queue] is not
    among the sources; section 4.8 says it lists tasks "filtered to the
    requesting account unless [all]". *)
Definition list_tasks (scope : option jsstring) (account : jsstring)
                      (tasks : list QueueTask) : list QueueTask :=
  if bool_decide (scope = Some (js "all")) then tasks
  else filter (fun t => task_accountId t = account) tasks.

(** The [scope] argument a request carries on the wire. *)
Definition scope_of (r : Request unit) : option jsstring :=
  match Map_get (js "scope") (query r) with
  | Some (JStr v) => Some v
  | _ => None
  end.

End ControlPlane.

(** ** The [ServerControlPage] component: hardware replacement *)

Module ServerControlPage.

Record ServerInfo := { serviceName : jsstring; name : jsstring }.

Record State := {
  selectedServer : option ServerInfo;
  hardwareReplaceType : jsstring;
  hardwareReplaceComment : jsstring;
  hardwareReplaceDetails : jsstring;
  showHardwareReplaceDialog : bool;
  isProcessing : bool
}.

(** [requestData]; an absent or undefined field is [None]. *)
Record ReplaceBody := {
  componentType : jsstring;
  comment : option jsstring;
  details : option jsstring
}.

(** [s || undefined] on a string. *)
Definition or_undefined (s : jsstring) : option jsstring :=
  match s with [] => None | _ => Some s end.

Definition replace_request (server : ServerInfo) (st : State)
  : Request ReplaceBody :=
  let ty := hardwareReplaceType st in
  {| method := POST;
     url := js "/server-control/" ++ serviceName server
            ++ js "/hardware/replace";
     params := [];
     data := Some {|
       componentType := ty;
       comment := or_undefined (hardwareReplaceComment st);
       details :=
         if jsstring_eqb ty (js "memory") || jsstring_eqb ty (js "cooling")
         then or_undefined (hardwareReplaceDetails st)
         else None |} |}.

(** The [catch] block.  Reading [error.response] throws on an undefined
    or null error ([None]). *)
Definition replace_failure (error : jsval) : option Toast :=
  response ← member error (js "response");
  let data := opt_member response (js "data") in
  if truthy (opt_member data (js "isPending")) then
    e ← member data (js "error");
    Some {| kind := Warning;
            title := or_else e (JStr (js "已有待处理的硬件更换请求"));
            message := None |}
  else
    Some {| kind := Error;
            title := JStr (js "硬件更换请求失败");
            message := Some (or_else (opt_member data (js "error"))
                                     (JStr (js "未知错误"))) |}.

(** What a failed property read throws: an error without [response]. *)
Definition type_error : jsval := obj [(js "name", JStr (js "TypeError"))].

Record Handled := {
  sent : option (Request ReplaceBody);
  state : State;
  toasts : list Toast
}.

(** The state once the call has ended: [finally] clears [isProcessing],
    and a confirmed success also closes the dialog. *)
Definition settled (st : State) (dialog : bool) : State :=
  {| selectedServer := selectedServer st;
     hardwareReplaceType := hardwareReplaceType st;
     hardwareReplaceComment := hardwareReplaceComment st;
     hardwareReplaceDetails := hardwareReplaceDetails st;
     showHardwareReplaceDialog := dialog;
     isProcessing := false |}.

Definition handleHardwareReplace (st : State) (confirmed : bool)
                                 (reply : Outcome) : Handled :=
  match selectedServer st, hardwareReplaceType st with
  | Some server, _ :: _ =>
      if confirmed then
        let req := replace_request server st in
        let unchanged := settled st (showHardwareReplaceDialog st) in
        let failed error :=
          {| sent := Some req; state := unchanged;
             toasts := option_list (replace_failure error) |} in
        match reply with
        | Resolved response =>
            match member response (js "data")
                  ≫= (fun d => member d (js "success")) with
            | Some ok =>
                if truthy ok then
                  {| sent := Some req; state := settled st false;
                     toasts := [ {| kind := Success;
                                    title := JStr (js "硬件更换请求已提交成功");
                                    message := None |} ] |}
                else {| sent := Some req; state := unchanged; toasts := [] |}
            | None => failed type_error
            end
        | Rejected error => failed error
        end
      else {| sent := None; state := st; toasts := [] |}
  | _, _ => {| sent := None; state := st; toasts := [] |}
  end.


(** [adjustPollingInterval], as a function of the [installPollingInterval]
    it sees and of the progress.  A timer is given by the [_idleTimeout]
    the platform shows for it ([None] where timers are plain numbers and
    have no such field); the result is the interval, in milliseconds,
    passed to [setInterval] for the timer that replaces it, if one does.
    Which [installPollingInterval] a call sees, and how long the new timer
    lives, is the component's business and is not part of this
    function. *)
Definition polling_interval (progressPercentage : Z) : Z :=
  if 90 <=? progressPercentage then 1000
  else if 80 <=? progressPercentage then 2000
  else if 70 <=? progressPercentage then 3000
  else 5000.

Definition adjustPollingInterval (installPollingInterval : option (option Z))
                                 (progressPercentage : Z) : option Z :=
  match installPollingInterval with
  | None => None
  | Some idleTimeout =>
      let newInterval := polling_interval progressPercentage in
      if bool_decide (idleTimeout <> Some newInterval)
      then Some newInterval
      else None
  end.

End ServerControlPage.

(** ** The [HistoryPage] component: the grouped view *)

Module HistoryPage.

Inductive Status := success | failed.

Record Price := {
  withTax : option Z;
  withoutTax : option Z;
  tax : option Z;
  currencyCode : option jsstring
}.

Record PurchaseHistory := {
  id : jsstring;
  taskId : option jsstring;
  planCode : jsstring;
  datacenter : jsstring;
  options : option (list jsstring);
  status : Status;
  orderId : option jsstring;
  orderUrl : option jsstring;
  errorMessage : option jsstring;
  purchaseTime : jsstring;
  sequence : option Z;
  price : option Price;
  accountId : option jsstring
}.

#[export] Instance Status_eq_dec : EqDecision Status.
Proof. solve_decision. Defined.

(** [it.taskId || it.id] *)
Definition group_key (it : PurchaseHistory) : jsstring :=
  match taskId it with
  | Some ((_ :: _) as t) => t
  | _ => id it
  end.

Record Group := { key : jsstring; items : list PurchaseHistory }.

(** One turn of the loop over [filteredHistory]. *)
Definition group_step (m : list (jsstring * list PurchaseHistory))
                      (it : PurchaseHistory)
  : list (jsstring * list PurchaseHistory) :=
  let key := group_key it in
  let m := if Map_has key m then m else Map_set key [] m in
  match Map_get key m with
  | Some arr => Map_set key (arr ++ [it]) m
  | None => m
  end.

Definition group_map (filteredHistory : list PurchaseHistory)
  : list (jsstring * list PurchaseHistory) :=
  fold_left group_step filteredHistory [].

Section View.
(** The two [Date] operations of the platform the view relies on:
    [new Date(s).getTime()], which is NaN ([None]) for text that is not
    a date, and [new Date(s).toLocaleString()]. *)
Variable getTime : jsstring -> option Z.
Variable toLocaleString : jsstring -> jsstring.

(** [(a, b) => new Date(b.purchaseTime).getTime()
               - new Date(a.purchaseTime).getTime()] *)
Definition by_time_desc (a b : PurchaseHistory) : option Z :=
  tb ← getTime (purchaseTime b);
  ta ← getTime (purchaseTime a);
  Some (tb - ta).

Definition groups (filteredHistory : list PurchaseHistory) : list Group :=
  map (fun kv => {| key := fst kv; items := sort by_time_desc (snd kv) |})
      (group_map filteredHistory).

Record GroupCard := {
  head : PurchaseHistory;
  successCount : nat;
  failedCount : nat;
  timeRange : jsstring
}.

(** The header of one group; indexing an empty [items] would throw
    ([None]). *)
Definition group_card (g : Group) : option GroupCard :=
  first ← items g !! 0%nat;
  final ← items g !! (length (items g) - 1)%nat;
  Some {| head := first;
          successCount := length (filter (fun x => status x = success) (items g));
          failedCount := length (filter (fun x => status x = failed) (items g));
          timeRange := toLocaleString (purchaseTime final) ++ js " ~ "
                       ++ toLocaleString (purchaseTime first) |}.
End View.



Section Filters.
Variable toLowerCase : jsstring -> jsstring.


End Filters.

(** [fetchHistory]: the request, and the two lists after a reply. *)
Definition history_request (scopeOverride : option bool) (scopeAll : bool)
  : Request unit :=
  get (js "/purchase-history")
      [(js "scope",
        if QueuePage.useScopeAll scopeOverride scopeAll then JStr (js "all")
        else JUndefined)].

End HistoryPage.


(** ** The toast container *)

Module ToastContainer.

(** The toasts on screen, each with the id [showToast] gave it. *)
Definition showToast (now : Z) (toast : Toast)
                     (prev : list (jsstring * Toast))
  : list (jsstring * Toast) :=
  prev ++ [(string_of_number now, toast)].

Definition removeToast (id : jsstring) (prev : list (jsstring * Toast))
  : list (jsstring * Toast) :=
  filter (fun toast => fst toast <> id) prev.

End ToastContainer.

(** * Vocabulary of the properties *)

Module Spec.

(** The control plane's error envelope, and the rejection the HTTP client
    raises for a reply with a given body. *)
Definition envelope (m c : jsstring) : jsval :=
  obj [(js "error", JStr m); (js "code", JStr c)].

Definition failure_with (body : jsval) : jsval :=
  obj [(js "response", obj [(js "data", body)])].

Definition error_toast (m : jsstring) : Toast :=
  {| kind := Error; title := JStr m; message := None |}.

(** A resolved reply whose [data] is the given object. *)
Definition status_reply (fields : list (jsstring * jsval)) : jsval :=
  obj [(js "data", obj fields)].

Definition comma_or_space (c : N) : Prop :=
  c = comma \/ is_whitespace c = true.

(** The endpoint shape of section 4.8: [GET /queue?scope=self|all]. *)
Definition queue_scope_shape (r : Request unit) : Prop :=
  method r = GET
  /\ url r = js "/queue"
  /\ (ControlPlane.scope_of r = Some (js "self")
      \/ ControlPlane.scope_of r = Some (js "all")).

Section Ranking.
Context {A : Type} (compare : A -> A -> option Z) (rank : A -> Z).

Definition desc (a b : A) : Prop := rank b <= rank a.
End Ranking.

Section History.
Import HistoryPage.
Variable getTime : jsstring -> option Z.

(** The entries of [l] that belong under key [k], in their order. *)
Definition bucket (k : jsstring) (l : list PurchaseHistory)
  : list PurchaseHistory :=
  filter (fun e => group_key e = k) l.

Definition if_nonempty {X} (b : list X) : option (list X) :=
  match b with [] => None | _ => Some b end.

Definition grouped_inv (m : list (jsstring * list PurchaseHistory))
                       (l : list PurchaseHistory) : Prop :=
  NoDup m.*1 /\ forall k, Map_get k m = if_nonempty (bucket k l).


Definition dated (e : PurchaseHistory) : Prop :=
  is_Some (getTime (purchaseTime e)).

End History.

End Spec.

(** * Sample inputs *)

Module Samples.

Definition dev_env : Constants.Env :=
  {| Constants.import_meta := Some (Some None);
     Constants.window :=
       Some {| Constants.origin := js "http://127.0.0.1:5173";
               Constants.hostname := js "127.0.0.1" |} |}.

Definition blank_form : VPSMonitorPage.Page :=
  {| VPSMonitorPage.monitorStatus := VPSMonitorPage.initial_monitorStatus;
     VPSMonitorPage.formData :=
       {| VPSMonitorPage.form_vpsModel := js "vps-2025-model2";
          VPSMonitorPage.form_ovhSubsidiary := js "FR";
          VPSMonitorPage.form_datacenters := js " , ,, ";
          VPSMonitorPage.form_notifyAvailable := true;
          VPSMonitorPage.form_notifyUnavailable := true |};
     VPSMonitorPage.showAddForm := true |}.

Definition all_sub : VPSMonitorPage.VPSSubscription :=
  {| VPSMonitorPage.id := js "sub-1";
     VPSMonitorPage.planCode := js "vps-2025-model2";
     VPSMonitorPage.ovhSubsidiary := js "FR";
     VPSMonitorPage.datacenters := [];
     VPSMonitorPage.monitorLinux := true;
     VPSMonitorPage.monitorWindows := true;
     VPSMonitorPage.notifyAvailable := true;
     VPSMonitorPage.notifyUnavailable := true |}.

Definition gra_sub : VPSMonitorPage.VPSSubscription :=
  {| VPSMonitorPage.id := js "sub-2";
     VPSMonitorPage.planCode := js "vps-2025-model1";
     VPSMonitorPage.ovhSubsidiary := js "IE";
     VPSMonitorPage.datacenters := [js "gra"; js "bhs"];
     VPSMonitorPage.monitorLinux := true;
     VPSMonitorPage.monitorWindows := true;
     VPSMonitorPage.notifyAvailable := true;
     VPSMonitorPage.notifyUnavailable := false |}.

Definition replace_dialog : ServerControlPage.State :=
  {| ServerControlPage.selectedServer :=
       Some {| ServerControlPage.serviceName := js "ns1234.ip-1-2-3.eu";
               ServerControlPage.name := js "ns1234" |};
     ServerControlPage.hardwareReplaceType := js "memory";
     ServerControlPage.hardwareReplaceComment := [];
     ServerControlPage.hardwareReplaceDetails := js "slot 2";
     ServerControlPage.showHardwareReplaceDialog := true;
     ServerControlPage.isProcessing := false |}.

Definition both_fields : gmap jsstring jsval :=
  <[js "error" := JStr (js "busy")]>
    (<[js "message" := JStr (js "try later")]> ∅).

(** Three instants and their time values in milliseconds; any other text
    stands for text that is not a date. *)
Definition day1 : jsstring := js "2024-01-01T00:00:00.000Z".
Definition day2 : jsstring := js "2024-01-02T00:00:00.000Z".
Definition day3 : jsstring := js "2024-01-03T00:00:00.000Z".

Definition sample_getTime (s : jsstring) : option Z :=
  if jsstring_eqb s day1 then Some 1704067200000
  else if jsstring_eqb s day2 then Some 1704153600000
  else if jsstring_eqb s day3 then Some 1704240000000
  else None.

(** A locale that prints a date as its ISO text. *)
Definition sample_toLocaleString (s : jsstring) : jsstring := s.

Definition entry (i : string) (t : option jsstring) (time : jsstring)
                 (st : HistoryPage.Status) : HistoryPage.PurchaseHistory :=
  {| HistoryPage.id := js i;
     HistoryPage.taskId := t;
     HistoryPage.planCode := js "24sk202";
     HistoryPage.datacenter := js "gra";
     HistoryPage.options := None;
     HistoryPage.status := st;
     HistoryPage.orderId := None;
     HistoryPage.orderUrl := None;
     HistoryPage.errorMessage := None;
     HistoryPage.purchaseTime := time;
     HistoryPage.sequence := None;
     HistoryPage.price := None;
     HistoryPage.accountId := None |}.

Definition sample_history : list HistoryPage.PurchaseHistory :=
  [ entry "h1" (Some (js "t1")) day1 HistoryPage.failed;
    entry "h2" None day2 HistoryPage.success;
    entry "h3" (Some (js "t1")) day3 HistoryPage.success;
    entry "h4" (Some (js "t1")) day2 HistoryPage.failed ].


End Samples.


(** * Vocabulary of the further properties *)

Module Shape.

(** A code as the comma-separated inputs produce it: not empty, without a
    comma, and with no white space at either end. *)
Definition tidy (c : jsstring) : Prop :=
  c <> [] /\ (comma ∉ c) /\ trim c = c.

(** The values of a list, each kept where it first occurs. *)
Fixpoint first_occurrences (l : list jsstring) : list jsstring :=
  match l with
  | [] => []
  | x :: l' => x :: filter (fun y => y <> x) (first_occurrences l')
  end.

(** The statuses the dashboard counts as active. *)
Definition active (s : jsstring) : Prop :=
  s ∈ [js "running"; js "pending"; js "paused"].


(** A form that gets through the checks of the queue page. *)
Definition passes (f : QueuePage.Form) : Prop :=
  trim (QueuePage.planCodeInput f) <> []
  /\ QueuePage.selectedDatacenters f <> []
  /\ 1 <= QueuePage.quantity f <= 100
  /\ 0 < QueuePage.retryInterval f.

End Shape.

(** * Sample inputs of the further properties *)

Module MoreSamples.

Definition override_env : Constants.Env :=
  {| Constants.import_meta := Some (Some (Some (js "https://api.example.org")));
     Constants.window :=
       Some {| Constants.origin := js "http://localhost:5173";
               Constants.hostname := js "localhost" |} |}.


Definition two_options : list jsstring :=
  [js "ram-64g-noecc-2133"; js "softraid-2x480ssd"].

Definition closed_panel : VPSMonitorPage.HistoryPanel :=
  {| VPSMonitorPage.expandedHistory := None;
     VPSMonitorPage.historyData := ∅ |}.

Definition one_change : list VPSMonitorPage.HistoryEntry :=
  [ {| VPSMonitorPage.entry_timestamp := js "2024-01-02T00:00:00.000Z";
       VPSMonitorPage.entry_datacenter := js "gra";
       VPSMonitorPage.entry_changeType := js "available" |} ].

Definition item (i s : string) : Dashboard.QueueItem :=
  {| Dashboard.id := js i; Dashboard.planCode := js "24sk202";
     Dashboard.status := js s; Dashboard.retryCount := 0;
     Dashboard.retryInterval := 30; Dashboard.accountId := None |}.

Definition two_active : list Dashboard.QueueItem :=
  [item "a" "running"; item "b" "completed"; item "c" "paused"].

Definition accounts : list jsval :=
  [ obj [(js "id", JStr (js "acct_1")); (js "alias", JStr (js "main"))];
    JNull;
    obj [(js "id", JStr (js "acct_2"))] ].


(** Two attempts of one task at the same instant, then a later one. *)
Definition tie_history : list HistoryPage.PurchaseHistory :=
  [ Samples.entry "h1" (Some (js "t1")) Samples.day2 HistoryPage.failed;
    Samples.entry "h2" (Some (js "t1")) Samples.day2 HistoryPage.success;
    Samples.entry "h3" (Some (js "t1")) Samples.day3 HistoryPage.success ].

(** Lower-casing of the ASCII letters, enough for the sample texts. *)
Definition ascii_lower (s : jsstring) : jsstring :=
  map (fun c => if ((0x41 <=? c) && (c <=? 0x5A))%N then (c + 0x20)%N else c) s.


Definition picked : list jsstring := [js "gra"; js "rbx"; js "bhs"].


Definition quick_form : QueuePage.Form :=
  {| QueuePage.planCodeInput := js " 24sk202 ";
     QueuePage.selectedDatacenters := [js "gra"; js "rbx"];
     QueuePage.retryInterval := 10;
     QueuePage.quantity := 2;
     QueuePage.selectedOptions := two_options;
     QueuePage.optionsInput := QueuePage.options_text two_options;
     QueuePage.autoPay := false;
     QueuePage.selectedAccountId := [];
     QueuePage.editingItemId := None;
     QueuePage.showAddForm := true |}.

(** A complete form whose interval is one second under the floor. *)
Definition floor_form : QueuePage.Form :=
  {| QueuePage.planCodeInput := js "24sk202";
     QueuePage.selectedDatacenters := [js "gra"];
     QueuePage.retryInterval := 14;
     QueuePage.quantity := 1;
     QueuePage.selectedOptions := [];
     QueuePage.optionsInput := [];
     QueuePage.autoPay := false;
     QueuePage.selectedAccountId := [];
     QueuePage.editingItemId := None;
     QueuePage.showAddForm := true |}.

Definition edited_form : QueuePage.Form :=
  {| QueuePage.planCodeInput := js "24sk202";
     QueuePage.selectedDatacenters := [js "gra"];
     QueuePage.retryInterval := 0;
     QueuePage.quantity := 500;
     QueuePage.selectedOptions := [];
     QueuePage.optionsInput := [];
     QueuePage.autoPay := true;
     QueuePage.selectedAccountId := js "acct_1";
     QueuePage.editingItemId := Some (js "task-7");
     QueuePage.showAddForm := true |}.

Definition stored_item : QueuePage.EditedItem :=
  {| QueuePage.item_id := js "task-7";
     QueuePage.item_planCode := Some (js "24sk202");
     QueuePage.item_accountId := None;
     QueuePage.item_retryInterval := Some 0;
     QueuePage.item_quantity := Some 250;
     QueuePage.item_options := Some two_options;
     QueuePage.item_auto_pay := None;
     QueuePage.item_datacenters := Some [js "gra"] |}.


Definition option (l v : string) : QueuePage.ServerOption :=
  {| QueuePage.label := js l; QueuePage.value := js v;
     QueuePage.family := None; QueuePage.isDefault := None |}.

Definition sample_plan : QueuePage.ServerPlan :=
  {| QueuePage.plan_planCode := js "24sk202";
     QueuePage.plan_datacenters :=
       [Some (js "GRA"); Some (js "ynm"); None; Some (js "gra");
        Some (js "par"); Some (js "BHS")];
     QueuePage.defaultOptions := None;
     QueuePage.availableOptions :=
       Some [ option "32GB DDR4" "ram-32g-ecc-2133";
              option "64GB DDR4" "ram-64g-ecc-2133";
              option "2x 480GB SSD" "softraid-2x480ssd";
              option "2x NVMe SSD" "softraid-2xnvme";
              option "Windows Server licence" "windows-server-2022" ] |}.

End MoreSamples.

(** * Properties *)

(** ** Retry-interval validation *)

Section RetryInterval.
Import Constants.

Lemma validateRetryInterval_below (n : Z) :
  n < MIN_RETRY_INTERVAL -> validateRetryInterval n = false.
Proof.
  unfold validateRetryInterval, MIN_RETRY_INTERVAL, MAX_RETRY_INTERVAL.
  intros Hn. apply andb_false_iff. left. lia.
Qed.

Lemma validateRetryInterval_spec (n : Z) :
  validateRetryInterval n = true <-> 15 <= n <= 3600.
Proof.
  unfold validateRetryInterval, MIN_RETRY_INTERVAL, MAX_RETRY_INTERVAL.
  rewrite andb_true_iff. lia.
Qed.

(** C9: validation also has a ceiling.  Every integer above
    [MAX_RETRY_INTERVAL] (3600) is refused, and an integer is accepted
    exactly when it lies between 15 and 3600, both included. *)
Theorem validateRetryInterval_range (n : Z) :
  MAX_RETRY_INTERVAL = 3600
  /\ (MAX_RETRY_INTERVAL < n -> validateRetryInterval n = false)
  /\ (validateRetryInterval n = true <-> 15 <= n <= 3600).
Proof.
  split; [reflexivity|]. split; [|apply validateRetryInterval_spec].
  intros Hn. apply not_true_is_false. rewrite validateRetryInterval_spec.
  unfold MAX_RETRY_INTERVAL in Hn. lia.
Qed.

Lemma validateRetryInterval_range_witness :
  validateRetryInterval 3601 = false /\ validateRetryInterval 3600 = true.
Proof.
  split.
  - apply (proj1 (proj2 (validateRetryInterval_range 3601))). reflexivity.
  - apply (proj2 (proj2 (validateRetryInterval_range 3600))). lia.
Defined.
End RetryInterval.

(** ** The API base address *)

Section BaseUrl.
Import Constants ControlPlane Samples.

(** C7: the backend listens on 19998 by default, and with no
    [VITE_API_URL] override (undefined or empty) a page served from
    [localhost] or [127.0.0.1] derives ["http://localhost:19998/api"],
    the address on that port. *)
Theorem API_URL_local (e : Env) (w : Location)
    (Henv : truthy_string (envUrl_of e) = false)
    (Hwin : window e = Some w)
    (Hhost : hostname w = js "localhost" \/ hostname w = js "127.0.0.1") :
  DEFAULT_PORT = 19998
  /\ API_URL e = js "http://localhost:19998/api"
  /\ API_URL e = js "http://localhost:" ++ string_of_number DEFAULT_PORT
                 ++ js "/api".
Proof.
  assert (API_URL e = js "http://localhost:19998/api") as ->.
  { unfold API_URL, window_hostname. rewrite Henv, Hwin.
    destruct Hhost as [-> | ->]; reflexivity. }
  repeat split.
Qed.

Lemma API_URL_local_witness :
  API_URL dev_env = js "http://localhost:19998/api".
Proof.
  refine (proj1 (proj2 (API_URL_local dev_env _ _ _ _))).
  - reflexivity.
  - reflexivity.
  - right. reflexivity.
Defined.
End BaseUrl.

(** ** The datacenter table *)

Section Datacenters.
Import OvhConstants.

(** C10: every code in [OVH_DATACENTERS] is exactly three lowercase ASCII
    letters, and no two entries share a code. *)
Theorem OVH_DATACENTERS_codes :
  Forall (fun d => length (code d) = 3%nat
                   /\ Forall (fun c => (0x61 <= c <= 0x7A)%N) (code d))
         OVH_DATACENTERS
  /\ NoDup (map code OVH_DATACENTERS).
Proof.
  split; refine (bool_decide_unpack _ _); vm_compute; exact I.
Qed.
End Datacenters.

(** ** The availability monitor page *)

Section MonitorPage.
Import VPSMonitorPage Spec.



(** C5 as stated does not hold: a reply that carries the count and the
    interval under [subscriptionCount] and [checkInterval] is not shown. *)
Lemma camelCase_status_not_read :
  ~ (forall (st : Page) (response d : jsval) (n k : Z),
       member response (js "data") = Some d ->
       member d (js "subscriptionCount") = Some (JNum n) ->
       member d (js "checkInterval") = Some (JNum k) ->
       let ms := monitorStatus (loadMonitorStatus st (Resolved response)) in
       subscriptions_cell ms = Some (string_of_number n)
       /\ interval_cell ms = Some (string_of_number k ++ js "s")).
Proof.
  intros H.
  specialize (H initial
    (status_reply [(js "running", JBool true);
                   (js "subscriptionCount", JNum 5);
                   (js "checkInterval", JNum 30)])
    _ 5 30 eq_refl eq_refl eq_refl).
  destruct H as [H _]. vm_compute in H. discriminate H.
Qed.

(** C5, amended: the status record is read under the names [running],
    [subscriptions_count] and [check_interval]; these are the names of
    the initial record, and a reply carrying the count and the interval
    under them has both shown. *)
Theorem status_field_names (st : Page) (response d : jsval) (r : bool) (n k : Z)
    (Hdata : member response (js "data") = Some d)
    (Hr : member d (js "running") = Some (JBool r))
    (Hn : member d (js "subscriptions_count") = Some (JNum n))
    (Hk : member d (js "check_interval") = Some (JNum k)) :
  let ms := monitorStatus (loadMonitorStatus st (Resolved response)) in
  initial_monitorStatus
    = JObj (<[js "running" := JBool false]>
            (<[js "subscriptions_count" := JNum 0]>
             (<[js "check_interval" := JNum 60]> ∅)))
  /\ running_shown ms = Some r
  /\ subscriptions_cell ms = Some (string_of_number n)
  /\ interval_cell ms = Some (string_of_number k ++ js "s").
Proof.
  cbn zeta. unfold loadMonitorStatus. rewrite Hdata. cbn [monitorStatus].
  unfold running_shown, subscriptions_cell, interval_cell.
  rewrite Hr, Hn, Hk. repeat split.
Qed.

Lemma status_field_names_witness :
  subscriptions_cell (monitorStatus (loadMonitorStatus initial
    (Resolved (status_reply [(js "running", JBool true);
                             (js "subscriptions_count", JNum 5);
                             (js "check_interval", JNum 30)]))))
  = Some (js "5").
Proof.
  refine (proj1 (proj2 (proj2
    (status_field_names initial _ _ true 5 30 _ _ _ _)))); reflexivity.
Defined.
End MonitorPage.

(** ** Subscribing without datacenters *)

Section EmptyDatacenters.
Import VPSMonitorPage Spec Samples.

Lemma drop_while_all {A} (p : A -> bool) (l : list A) :
  Forall (fun x => p x = true) l -> drop_while p l = [].
Proof.
  induction 1 as [|x l Hx _ IH]; simpl; [reflexivity|].
  rewrite Hx. exact IH.
Qed.

Lemma trim_blank (s : jsstring) :
  Forall (fun c => is_whitespace c = true) s -> trim s = [].
Proof.
  intros H. unfold trim, trimStart, trimEnd.
  rewrite (drop_while_all _ _ H). reflexivity.
Qed.

Lemma split_blank (s : jsstring) :
  Forall comma_or_space s ->
  Forall (Forall (fun c => is_whitespace c = true)) (split comma s).
Proof.
  induction 1 as [|c s Hc _ IH]; simpl.
  - repeat constructor.
  - destruct (N.eqb_spec c comma) as [->|Hne].
    + constructor; [constructor | exact IH].
    + destruct Hc as [Hc|Hc]; [contradiction|].
      destruct (split comma s) as [|w ws]; [repeat constructor; exact Hc|].
      inversion IH; subst. constructor; [constructor|]; assumption.
Qed.

Lemma parse_datacenters_nil (input : jsstring) :
  Forall (fun piece => trim piece = []) (split comma input) ->
  parse_datacenters input = [].
Proof.
  unfold parse_datacenters.
  induction 1 as [|p ps Hp _ IH]; cbn [map]; [reflexivity|].
  rewrite filter_cons, Hp.
  destruct (decide _) as [Hc|_]; [discriminate Hc | exact IH].
Qed.

(** C2: when the datacenters field holds no code (every comma-separated
    piece trims to nothing: the empty text, or only commas and white
    space), creating the subscription posts [datacenters = []] to
    [/vps-monitor/subscriptions] whatever the reply, and a subscription
    with an empty list is shown as monitoring all datacenters. *)
Theorem empty_datacenters_means_all
    (st : Page) (reply : Outcome) (sub : VPSSubscription)
    (Hinput : Forall (fun piece => trim piece = [])
                     (split comma (form_datacenters (formData st)))
              \/ Forall comma_or_space (form_datacenters (formData st)))
    (Hsub : datacenters sub = []) :
  let r := sent (handleAddSubscription st reply) in
  method r = POST
  /\ url r = js "/vps-monitor/subscriptions"
  /\ body_datacenters <$> data r = Some []
  /\ datacenters_line sub = js "监控所有数据中心".
Proof.
  assert (Hnil : parse_datacenters (form_datacenters (formData st)) = []).
  { apply parse_datacenters_nil. destruct Hinput as [H|H]; [exact H|].
    eapply Forall_impl; [apply split_blank, H|].
    intros p Hp. apply trim_blank, Hp. }
  cbn zeta. unfold datacenters_line. rewrite Hsub.
  destruct reply; cbn [handleAddSubscription sent];
    unfold subscription_request; rewrite Hnil; repeat split.
Qed.

Lemma empty_datacenters_means_all_witness :
  body_datacenters
    <$> data (sent (handleAddSubscription blank_form (Resolved JNull)))
  = Some []
  /\ datacenters_line all_sub = js "监控所有数据中心".
Proof.
  assert (H : Forall comma_or_space (form_datacenters (formData blank_form))).
  { repeat constructor; (left; reflexivity) || (right; reflexivity). }
  pose proof (empty_datacenters_means_all blank_form (Resolved JNull) all_sub
                (or_intror H) eq_refl) as (_ & _ & Hd & Hl).
  split; assumption.
Defined.
End EmptyDatacenters.

(** ** Error bodies *)

Section ErrorBodies.
Import Spec Samples.

(** C6 as stated does not hold: creating a subscription does not show the
    text held in the [error] field of the envelope. *)
Lemma add_subscription_ignores_error_field :
  ~ (forall (st : VPSMonitorPage.Page) (m c : jsstring),
       m <> [] ->
       VPSMonitorPage.toasts
         (VPSMonitorPage.handleAddSubscription st
            (Rejected (failure_with (envelope m c))))
       = [error_toast m]).
Proof.
  intros H.
  specialize (H VPSMonitorPage.initial (js "plan not found") (js "NOT_FOUND")).
  vm_compute in H. specialize (H ltac:(discriminate)). discriminate H.
Qed.

Lemma member_failure_with (body : jsval) :
  member (failure_with body) (js "response") = Some (obj [(js "data", body)]).
Proof. reflexivity. Qed.

Lemma opt_member_data (body : jsval) :
  opt_member (obj [(js "data", body)]) (js "data") = body.
Proof. reflexivity. Qed.

(** C6, amended: which field carries the text depends on the handler.
    The hardware-replacement handler shows the [error] field of the body;
    creating a subscription and toggling the monitor show the [message]
    field.  Each falls back to a fixed text of its own when its field is
    missing or empty, whatever the other field holds, so on the envelope
    [{error, code}] the hardware handler shows the text and the monitor
    page shows its fallbacks. *)
Theorem error_text_field (st : VPSMonitorPage.Page)
    (hw : ServerControlPage.State) (server : ServerControlPage.ServerInfo)
    (fields : gmap jsstring jsval) (e m c : jsstring)
    (He : e <> []) (Hm : m <> [])
    (Hserver : ServerControlPage.selectedServer hw = Some server)
    (Htype : ServerControlPage.hardwareReplaceType hw <> [])
    (Hpending : fields !! js "isPending" = None) :
  (fields !! js "error" = Some (JStr e) ->
   ServerControlPage.toasts
     (ServerControlPage.handleHardwareReplace hw true
        (Rejected (failure_with (JObj fields))))
   = [ {| kind := Error; title := JStr (js "硬件更换请求失败");
          message := Some (JStr e) |} ])
  /\ (fields !! js "error" = None \/ fields !! js "error" = Some (JStr []) ->
      ServerControlPage.toasts
        (ServerControlPage.handleHardwareReplace hw true
           (Rejected (failure_with (JObj fields))))
      = [ {| kind := Error; title := JStr (js "硬件更换请求失败");
             message := Some (JStr (js "未知错误")) |} ])
  /\ (fields !! js "message" = Some (JStr m) ->
      VPSMonitorPage.toasts
        (VPSMonitorPage.handleAddSubscription st
           (Rejected (failure_with (JObj fields))))
      = [error_toast m]
      /\ VPSMonitorPage.toggleMonitor_failure (failure_with (JObj fields))
         = [error_toast m])
  /\ (fields !! js "message" = None
      \/ fields !! js "message" = Some (JStr []) ->
      VPSMonitorPage.toasts
        (VPSMonitorPage.handleAddSubscription st
           (Rejected (failure_with (JObj fields))))
      = [error_toast (js "订阅失败")]
      /\ VPSMonitorPage.toggleMonitor_failure (failure_with (JObj fields))
         = [error_toast (js "操作失败")])
  /\ ServerControlPage.toasts
       (ServerControlPage.handleHardwareReplace hw true
          (Rejected (failure_with (envelope e c))))
     = [ {| kind := Error; title := JStr (js "硬件更换请求失败");
            message := Some (JStr e) |} ]
  /\ VPSMonitorPage.toasts
       (VPSMonitorPage.handleAddSubscription st
          (Rejected (failure_with (envelope e c))))
     = [error_toast (js "订阅失败")]
  /\ VPSMonitorPage.toggleMonitor_failure (failure_with (envelope e c))
     = [error_toast (js "操作失败")].
Proof.
  assert (Hhw : forall body,
            ServerControlPage.toasts
              (ServerControlPage.handleHardwareReplace hw true
                 (Rejected (failure_with body)))
            = option_list (ServerControlPage.replace_failure
                             (failure_with body))).
  { intros body. unfold ServerControlPage.handleHardwareReplace.
    rewrite Hserver.
    destruct (ServerControlPage.hardwareReplaceType hw) as [|u us];
      [contradiction | reflexivity]. }
  assert (Hfail : forall v,
            fields !! js "error" = v ->
            ServerControlPage.replace_failure (failure_with (JObj fields))
            = Some {| kind := Error; title := JStr (js "硬件更换请求失败");
                      message := Some (or_else (default JUndefined v)
                                               (JStr (js "未知错误"))) |}).
  { intros v Hv. unfold ServerControlPage.replace_failure.
    rewrite member_failure_with. cbn [mbind option_bind].
    rewrite opt_member_data. unfold opt_member, member.
    rewrite Hpending, Hv. reflexivity. }
  assert (Hmsg : forall v fallback,
            fields !! js "message" = v ->
            VPSMonitorPage.error_message (failure_with (JObj fields)) fallback
            = Some (or_else (default JUndefined v) (JStr fallback))).
  { intros v fallback Hv. unfold VPSMonitorPage.error_message.
    rewrite member_failure_with. cbn [mbind option_bind].
    rewrite opt_member_data. unfold opt_member, member.
    rewrite Hv. reflexivity. }
  split; [|split; [|split; [|split; [|split; [|split]]]]].
  - intros Hf. rewrite Hhw, (Hfail _ Hf).
    destruct e; [contradiction | reflexivity].
  - intros [Hf | Hf]; rewrite Hhw, (Hfail _ Hf); reflexivity.
  - intros Hf. unfold VPSMonitorPage.toggleMonitor_failure.
    cbn [VPSMonitorPage.handleAddSubscription VPSMonitorPage.toasts].
    rewrite !(Hmsg _ _ Hf). destruct m; [contradiction | split; reflexivity].
  - intros [Hf | Hf]; unfold VPSMonitorPage.toggleMonitor_failure;
      cbn [VPSMonitorPage.handleAddSubscription VPSMonitorPage.toasts];
      rewrite !(Hmsg _ _ Hf); split; reflexivity.
  - rewrite Hhw. destruct e; [contradiction | reflexivity].
  - reflexivity.
  - reflexivity.
Qed.

Lemma error_text_field_witness :
  ServerControlPage.toasts
    (ServerControlPage.handleHardwareReplace replace_dialog true
       (Rejected (failure_with (JObj both_fields))))
  = [ {| kind := Error; title := JStr (js "硬件更换请求失败");
         message := Some (JStr (js "busy")) |} ]
  /\ VPSMonitorPage.toasts
       (VPSMonitorPage.handleAddSubscription VPSMonitorPage.initial
          (Rejected (failure_with (JObj both_fields))))
     = [error_toast (js "try later")]
  /\ VPSMonitorPage.toggleMonitor_failure
       (failure_with (envelope (js "busy") (js "BUSY")))
     = [error_toast (js "操作失败")].
Proof.
  pose proof (error_text_field VPSMonitorPage.initial replace_dialog _
                both_fields (js "busy") (js "try later") (js "BUSY")
                ltac:(discriminate) ltac:(discriminate)
                eq_refl ltac:(discriminate) eq_refl)
    as (Hhw & _ & Hvps & _ & _ & _ & Htoggle).
  split; [apply Hhw; reflexivity|].
  split; [apply Hvps; reflexivity | exact Htoggle].
Defined.
End ErrorBodies.

(** ** Listing tasks *)

Section ListTasks.
Import ControlPlane Spec.

(** C4 as stated does not hold: the dashboard's request for the task list
    is not of that shape. *)
Lemma dashboard_request_not_scoped :
  Dashboard.queue_request ∈ Dashboard.fetchData_requests
  /\ ~ queue_scope_shape Dashboard.queue_request.
Proof.
  split; [right; left|].
  intros (_ & Hurl & _). vm_compute in Hurl. discriminate Hurl.
Qed.

(** C4, amended: the queue page lists tasks with [GET /queue], sending
    [scope=all] for all accounts and no [scope] otherwise, and the list
    returned is the whole list for [all] and the requesting account's
    tasks otherwise; the dashboard fetches its list from [GET /queue/all]
    with no query parameter. *)
Theorem list_tasks_requests (scopeOverride : option bool) (scopeAll : bool)
    (account : jsstring) (tasks : list QueueTask) :
  let r := QueuePage.queue_request scopeOverride scopeAll in
  let all := QueuePage.useScopeAll scopeOverride scopeAll in
  (method r = GET /\ url r = js "/queue"
   /\ query r = (if all then [(js "scope", JStr (js "all"))] else [])
   /\ scope_of r = (if all then Some (js "all") else None))
  /\ list_tasks (scope_of r) account tasks
     = (if all then tasks
        else filter (fun t => task_accountId t = account) tasks)
  /\ Forall (fun t => task_accountId t = account)
            (list_tasks (Some (js "self")) account tasks)
  /\ (Dashboard.fetchData_requests
        = [Dashboard.stats_request; Dashboard.queue_request]
      /\ method Dashboard.queue_request = GET
      /\ url Dashboard.queue_request = js "/queue/all"
      /\ params Dashboard.queue_request = []).
Proof.
  cbn zeta. unfold QueuePage.queue_request.
  destruct (QueuePage.useScopeAll scopeOverride scopeAll);
    (split; [repeat split|]); (split; [reflexivity|]);
    (split; [|repeat split]);
    unfold list_tasks; rewrite bool_decide_eq_false_2 by discriminate;
    apply list.Forall_forall; intros t Ht;
    apply list_elem_of_filter in Ht; apply Ht.
Qed.
End ListTasks.

(** ** Insertion-ordered maps and sorting *)

Section MapFacts.
Context {V : Type}.
Implicit Types (m : list (jsstring * V)) (k : jsstring) (v : V).

Lemma jsstring_eqb_decide (a b : jsstring) :
  jsstring_eqb a b = bool_decide (a = b).
Proof. reflexivity. Qed.

Lemma Map_get_set k k' v m :
  Map_get k (Map_set k' v m) = if decide (k' = k) then Some v else Map_get k m.
Proof.
  induction m as [|[k0 v0] m IH]; cbn [Map_set Map_get].
  - rewrite jsstring_eqb_decide. destruct (decide (k' = k)) as [->|Hne].
    + rewrite bool_decide_eq_true_2; reflexivity.
    + rewrite bool_decide_eq_false_2; [reflexivity | exact Hne].
  - rewrite !jsstring_eqb_decide.
    destruct (decide (k0 = k')) as [->|Hne0].
    + rewrite bool_decide_eq_true_2 by reflexivity. cbn [Map_get].
      rewrite jsstring_eqb_decide.
      destruct (decide (k' = k)) as [->|Hne].
      * rewrite bool_decide_eq_true_2; reflexivity.
      * rewrite bool_decide_eq_false_2; [reflexivity | exact Hne].
    + rewrite bool_decide_eq_false_2 by exact Hne0. cbn [Map_get].
      rewrite IH, jsstring_eqb_decide.
      destruct (decide (k0 = k)) as [->|Hne1].
      * rewrite bool_decide_eq_true_2 by reflexivity.
        rewrite decide_False; [reflexivity | congruence].
      * rewrite bool_decide_eq_false_2 by exact Hne1. reflexivity.
Qed.

Lemma Map_get_None_keys k m : Map_get k m = None <-> k ∉ m.*1.
Proof.
  induction m as [|[k0 v0] m IH]; cbn [Map_get fmap list_fmap fst].
  - split; [intros _; apply not_elem_of_nil | reflexivity].
  - rewrite jsstring_eqb_decide, not_elem_of_cons.
    destruct (decide (k0 = k)) as [->|Hne].
    + rewrite bool_decide_eq_true_2 by reflexivity.
      split; [discriminate | intros [H _]; contradiction].
    + rewrite bool_decide_eq_false_2 by exact Hne. rewrite IH.
      split; [intros H; split; [congruence | exact H] | intros [_ H]; exact H].
Qed.


Lemma Map_elem_get k v m : NoDup m.*1 -> (k, v) ∈ m -> Map_get k m = Some v.
Proof.
  induction m as [|[k0 v0] m IH]; cbn [Map_get fmap list_fmap fst].
  - intros _ H. inversion H.
  - intros Hnd Hin. apply NoDup_cons in Hnd as [Hk0 Hnd].
    rewrite jsstring_eqb_decide. apply elem_of_cons in Hin as [[= -> ->]|Hin].
    + rewrite bool_decide_eq_true_2; reflexivity.
    + rewrite bool_decide_eq_false_2; [auto|].
      intros ->. apply Hk0. apply list_elem_of_fmap. exists (k, v). auto.
Qed.

Lemma Map_set_keys k v m :
  (Map_set k v m).*1 = if Map_has k m then m.*1 else m.*1 ++ [k].
Proof.
  unfold Map_has.
  induction m as [|[k0 v0] m IH]; cbn [Map_set Map_get]; [reflexivity|].
  rewrite jsstring_eqb_decide. destruct (decide (k0 = k)) as [->|Hne].
  - rewrite bool_decide_eq_true_2 by reflexivity. reflexivity.
  - rewrite bool_decide_eq_false_2 by exact Hne.
    cbn [fmap list_fmap fst] in *. rewrite IH.
    destruct (Map_get k m); reflexivity.
Qed.

Lemma Map_set_NoDup k v m : NoDup m.*1 -> NoDup (Map_set k v m).*1.
Proof.
  intros Hnd. rewrite Map_set_keys. unfold Map_has.
  destruct (Map_get k m) eqn:Hget; [exact Hnd|].
  apply NoDup_app. split; [exact Hnd|]. split; [|apply NoDup_singleton].
  intros x Hx Hx'. apply list_elem_of_singleton in Hx' as ->.
  apply Map_get_None_keys in Hget. contradiction.
Qed.
End MapFacts.

Section SortFacts.
Context {A : Type} (compare : A -> A -> option Z).

Lemma sort_insert_perm (x : A) (l : list A) :
  sort_insert compare x l ≡ₚ x :: l.
Proof.
  induction l as [|y l IH]; cbn [sort_insert]; [reflexivity|].
  destruct (sorts_after compare x y); [|reflexivity].
  rewrite IH. apply Permutation_swap.
Qed.

Lemma sort_perm (l : list A) : sort compare l ≡ₚ l.
Proof.
  induction l as [|x l IH]; cbn [sort]; [reflexivity|].
  rewrite sort_insert_perm, IH. reflexivity.
Qed.

(** When the comparator is the difference of a numeric rank on the
    elements at hand, the result is in non-increasing rank order. *)
Context (rank : A -> Z).


End SortFacts.

(** ** The grouped history view *)

Section GroupedHistory.
Import HistoryPage Spec.
Variable getTime : jsstring -> option Z.
Variable toLocaleString : jsstring -> jsstring.

Implicit Types (l : list PurchaseHistory) (e : PurchaseHistory)
               (m : list (jsstring * list PurchaseHistory)).

Lemma if_nonempty_snoc {X} (b : list X) (x : X) :
  if_nonempty (b ++ [x]) = Some (b ++ [x]).
Proof. destruct b; reflexivity. Qed.

Lemma if_nonempty_Some {X} (b c : list X) :
  if_nonempty b = Some c -> b = c /\ c <> [].
Proof. destruct b; [discriminate|]. intros [= <-]. split; [reflexivity|discriminate]. Qed.

Lemma if_nonempty_None {X} (b : list X) : if_nonempty b = None -> b = [].
Proof. destruct b; [reflexivity|discriminate]. Qed.

Lemma bucket_snoc k l e :
  bucket k (l ++ [e])
  = bucket k l ++ (if decide (group_key e = k) then [e] else []).
Proof.
  unfold bucket. rewrite filter_app, filter_cons, filter_nil. reflexivity.
Qed.

Lemma group_step_inv m l e :
  grouped_inv m l -> grouped_inv (group_step m e) (l ++ [e]).
Proof.
  intros [Hnd Hget]. unfold group_step, Map_has.
  destruct (Map_get (group_key e) m) as [arr|] eqn:Hk.
  - rewrite Hk. split; [apply Map_set_NoDup, Hnd|].
    intros k. rewrite Map_get_set, bucket_snoc.
    destruct (decide (group_key e = k)) as [<-|Hne].
    + rewrite Hget in Hk. apply if_nonempty_Some in Hk as [-> _].
      rewrite if_nonempty_snoc. reflexivity.
    + rewrite app_nil_r. apply Hget.
  - rewrite Map_get_set, decide_True by reflexivity.
    split; [apply Map_set_NoDup, Map_set_NoDup, Hnd|].
    intros k. rewrite !Map_get_set, bucket_snoc.
    destruct (decide (group_key e = k)) as [<-|Hne].
    + rewrite Hget in Hk. apply if_nonempty_None in Hk. rewrite Hk.
      reflexivity.
    + rewrite app_nil_r. apply Hget.
Qed.

Lemma fold_group_step_inv l m l0 :
  grouped_inv m l0 -> grouped_inv (fold_left group_step l m) (l0 ++ l).
Proof.
  revert m l0. induction l as [|e l IH]; intros m l0 Hinv; cbn [fold_left].
  - rewrite app_nil_r. exact Hinv.
  - replace (l0 ++ e :: l) with ((l0 ++ [e]) ++ l)
      by (rewrite <- app_assoc; reflexivity).
    apply IH, group_step_inv, Hinv.
Qed.

Lemma group_map_inv l : grouped_inv (group_map l) l.
Proof.
  apply (fold_group_step_inv l [] []). split; [constructor|].
  intros k. reflexivity.
Qed.








Lemma map_as_fmap {X Y} (f : X -> Y) (xs : list X) : map f xs = f <$> xs.
Proof. induction xs as [|x xs IH]; cbn; [|rewrite <- IH]; reflexivity. Qed.

Lemma groups_keys l : map key (groups getTime l) = (group_map l).*1.
Proof.
  unfold groups. rewrite map_map. cbn [key]. apply map_as_fmap.
Qed.

Lemma groups_elem l (g : Group) :
  g ∈ groups getTime l ->
  bucket (key g) l <> []
  /\ items g = sort (by_time_desc getTime) (bucket (key g) l).
Proof.
  unfold groups. rewrite map_as_fmap. intros Hg.
  apply list_elem_of_fmap in Hg as ([k arr] & -> & Hin). cbn [key items fst snd].
  destruct (group_map_inv l) as [Hnd Hget].
  apply (Map_elem_get _ _ _ Hnd) in Hin. rewrite Hget in Hin.
  apply if_nonempty_Some in Hin as [-> Hne]. split; [exact Hne | reflexivity].
Qed.




End GroupedHistory.

Section GroupedHistorySample.
Import HistoryPage Spec Samples.


End GroupedHistorySample.

(** * Worked examples *)

Section Examples.
Import Samples.

Example parse_datacenters_codes :
  VPSMonitorPage.parse_datacenters (js " gra , ,bhs,") = [js "gra"; js "bhs"].
Proof. reflexivity. Qed.

Example split_empty : split comma [] = [[]].
Proof. reflexivity. Qed.

Example trim_no_break_space : trim [0xA0; 0x67; 0x20; 0x3000]%N = [0x67%N].
Proof. reflexivity. Qed.

Example datacenters_line_listed :
  VPSMonitorPage.datacenters_line gra_sub = js "监控数据中心: gra, bhs".
Proof. reflexivity. Qed.

Example API_URL_relative_override :
  Constants.API_URL
    {| Constants.import_meta := Some (Some (Some (js "/backend")));
       Constants.window :=
         Some {| Constants.origin := js "https://ovh.example.org";
                 Constants.hostname := js "ovh.example.org" |} |}
  = js "https://ovh.example.org/backend".
Proof. reflexivity. Qed.

Example API_URL_production :
  Constants.API_URL
    {| Constants.import_meta := None;
       Constants.window :=
         Some {| Constants.origin := js "https://ovh.example.org";
                 Constants.hostname := js "ovh.example.org" |} |}
  = js "https://ovh.example.org/api".
Proof. reflexivity. Qed.

Example API_URL_no_window :
  Constants.API_URL {| Constants.import_meta := None; Constants.window := None |}
  = js "/api".
Proof. reflexivity. Qed.

Example camelCase_cells :
  let ms := VPSMonitorPage.monitorStatus
              (VPSMonitorPage.loadMonitorStatus VPSMonitorPage.initial
                 (Resolved (Spec.status_reply
                    [(js "running", JBool true);
                     (js "subscriptionCount", JNum 5);
                     (js "checkInterval", JNum 30)]))) in
  VPSMonitorPage.subscriptions_cell ms = Some []
  /\ VPSMonitorPage.interval_cell ms = Some (js "s").
Proof. split; reflexivity. Qed.

Example envelope_on_monitor_page :
  VPSMonitorPage.toasts
    (VPSMonitorPage.handleAddSubscription VPSMonitorPage.initial
       (Rejected (Spec.failure_with
                    (Spec.envelope (js "plan not found") (js "NOT_FOUND")))))
  = [Spec.error_toast (js "订阅失败")].
Proof. reflexivity. Qed.

Example pending_replacement :
  ServerControlPage.toasts
    (ServerControlPage.handleHardwareReplace replace_dialog true
       (Rejected (Spec.failure_with
                    (obj [(js "isPending", JBool true);
                          (js "error", JStr (js "already requested"))]))))
  = [ {| kind := Warning; title := JStr (js "already requested");
         message := None |} ].
Proof. reflexivity. Qed.

Example grouped_sample :
  map (fun g => (HistoryPage.key g, map HistoryPage.id (HistoryPage.items g)))
      (HistoryPage.groups sample_getTime sample_history)
  = [ (js "t1", [js "h3"; js "h4"; js "h1"]); (js "h2", [js "h2"]) ].
Proof. reflexivity. Qed.

Example grouped_sample_range :
  map (fun c => HistoryPage.timeRange <$> c)
      (map (HistoryPage.group_card sample_toLocaleString)
           (HistoryPage.groups sample_getTime sample_history))
  = [ Some (day1 ++ js " ~ " ++ day3); Some (day2 ++ js " ~ " ++ day2) ].
Proof. reflexivity. Qed.

Example dashboard_active_items :
  map Dashboard.id
    (Dashboard.activeItems
       (map (fun p => {| Dashboard.id := fst p; Dashboard.planCode := js "24sk202";
                         Dashboard.status := snd p; Dashboard.retryCount := 0;
                         Dashboard.retryInterval := 30;
                         Dashboard.accountId := None |})
            [(js "a", js "running"); (js "b", js "completed");
             (js "c", js "paused"); (js "d", js "pending");
             (js "e", js "running")]))
  = [js "a"; js "c"; js "d"].
Proof. reflexivity. Qed.
End Examples.

(** * Further properties of the sources *)

(** ** The base address and the interval text *)

Section MoreConstants.
Import Constants MoreSamples.

Lemma js_app_nonempty (a b : jsstring) : b <> [] -> a ++ b <> [].
Proof. intros Hb H. apply app_eq_nil in H as [_ H]. contradiction. Qed.

(** X1: the base address is never the empty text, whatever the
    environment holds. *)
Theorem API_URL_nonempty (e : Env) : API_URL e <> [].
Proof.
  unfold API_URL.
  destruct (envUrl_of e) as [[|c u]|]; cbn [truthy_string from_option id].
  2:{ destruct (startsWith1 (c :: u) 47%N); [|discriminate].
      destruct (nonempty (window_origin e)); [|discriminate].
      apply js_app_nonempty. discriminate. }
  all: destruct (_ || _); [vm_compute; discriminate|];
       destruct (nonempty (window_origin e));
       [apply js_app_nonempty|]; vm_compute; discriminate.
Qed.

(** X2: a non-empty [VITE_API_URL] always wins: an absolute one is the
    result as it stands, a relative one is appended to the page origin (to
    nothing without a window); the host name is not looked at. *)
Theorem API_URL_override (e : Env) (u : jsstring)
    (Henv : envUrl_of e = Some u) (Hu : u <> []) :
  API_URL e = if startsWith1 u 0x2F%N then window_origin e ++ u else u.
Proof.
  unfold API_URL. rewrite Henv. destruct u as [|c u]; [contradiction|].
  cbn [truthy_string from_option id].
  destruct (startsWith1 (c :: u) 47%N); [|reflexivity].
  destruct (window_origin e); reflexivity.
Qed.

Lemma API_URL_override_witness :
  API_URL override_env = js "https://api.example.org".
Proof.
  rewrite (API_URL_override override_env (js "https://api.example.org"));
    [reflexivity | reflexivity | vm_compute; discriminate].
Defined.

(** X3: for a whole number of seconds from one hour up to the largest
    safe integer, [formatInterval] shows hours and minutes only: the text
    is that of the interval rounded down to a whole minute. *)
Theorem formatInterval_drops_seconds (s : Z)
    (Hs : 3600 <= s <= MAX_SAFE_INTEGER) :
  is_Some (formatInterval s)
  /\ formatInterval s = formatInterval (60 * (s / 60)).
Proof.
  assert (Hq : 60 <= s / 60) by (apply Z.div_le_lower_bound; lia).
  assert (Hle : 60 * (s / 60) <= s) by (apply Z.mul_div_le; lia).
  assert (Hsafe : forall n, 0 <= n <= MAX_SAFE_INTEGER -> isSafeInteger n = true).
  { intros n Hn. unfold isSafeInteger, MAX_SAFE_INTEGER in *.
    apply andb_true_iff. split; [apply Z.leb_le | apply Z.leb_le]; lia. }
  unfold formatInterval.
  rewrite !Hsafe by lia. cbn [negb].
  rewrite (proj2 (Z.ltb_ge s 60)), (proj2 (Z.ltb_ge s 3600)) by lia.
  split; [destruct (0 <? _); eexists; reflexivity|].
  rewrite (proj2 (Z.ltb_ge (60 * (s / 60)) 60)),
          (proj2 (Z.ltb_ge (60 * (s / 60)) 3600)) by lia.
  rewrite !Z.rem_mod_nonneg by lia.
  assert (Hh : 60 * (s / 60) / 3600 = s / 3600).
  { change 3600 with (60 * 60). rewrite <- !Z.div_div by lia.
    rewrite (Z.mul_comm 60), Z.div_mul by lia. reflexivity. }
  assert (Hm : (60 * (s / 60)) mod 3600 / 60 = s mod 3600 / 60).
  { change 3600 with (60 * 60).
    rewrite Z.mul_mod_distr_l by lia.
    rewrite (Z.rem_mul_r s 60 60) by lia.
    rewrite (Z.mul_comm 60 ((s / 60) mod 60)), Z.div_mul by lia.
    rewrite Z.add_comm, Z.div_add_l by lia.
    rewrite (Z.div_small (s mod 60)) by (apply Z.mod_pos_bound; lia). lia. }
  rewrite Hh, Hm. reflexivity.
Qed.

Lemma formatInterval_drops_seconds_witness :
  formatInterval 3725 = Some (js "1小时2分钟")
  /\ formatInterval 3725 = formatInterval 3720.
Proof.
  split; [reflexivity|].
  apply (formatInterval_drops_seconds 3725). unfold MAX_SAFE_INTEGER. lia.
Defined.
End MoreConstants.

(** ** Comma-separated inputs *)

Section CommaSeparated.
Import Shape.

Lemma drop_while_suffix {A} (p : A -> bool) (l : list A) :
  drop_while p l `suffix_of` l.
Proof.
  induction l as [|x l IH]; cbn [drop_while]; [reflexivity|].
  destruct (p x); [|reflexivity]. apply suffix_cons_r, IH.
Qed.

Lemma drop_while_fixed {A} (p : A -> bool) (x : A) (l : list A) :
  drop_while p (x :: l) = x :: l -> p x = false.
Proof.
  cbn [drop_while]. destruct (p x); [|reflexivity]. intros H.
  pose proof (suffix_length _ _ (drop_while_suffix p l)) as Hlen.
  rewrite H in Hlen. cbn in Hlen. lia.
Qed.

Lemma drop_while_idem {A} (p : A -> bool) (l : list A) :
  drop_while p (drop_while p l) = drop_while p l.
Proof.
  induction l as [|x l IH]; cbn [drop_while]; [reflexivity|].
  destruct (p x) eqn:Hx; [exact IH|]. cbn [drop_while]. rewrite Hx. reflexivity.
Qed.

Lemma trimEnd_prefix (s : jsstring) : trimEnd s `prefix_of` s.
Proof.
  unfold trimEnd. destruct (drop_while_suffix is_whitespace (rev s)) as [k Hk].
  exists (rev k). rewrite <- rev_app_distr, <- Hk, rev_involutive. reflexivity.
Qed.

Lemma trimStart_trimEnd (t : jsstring) :
  trimStart t = t -> trimStart (trimEnd t) = trimEnd t.
Proof.
  intros Ht. destruct (trimEnd_prefix t) as [k Hk].
  destruct (trimEnd t) as [|x u]; [reflexivity|].
  unfold trimStart in *. rewrite Hk in Ht. cbn [app] in Ht.
  apply drop_while_fixed in Ht. cbn [drop_while]. rewrite Ht. reflexivity.
Qed.

Lemma trimEnd_idem (t : jsstring) : trimEnd (trimEnd t) = trimEnd t.
Proof.
  unfold trimEnd. rewrite rev_involutive, drop_while_idem. reflexivity.
Qed.

Lemma trim_idem (s : jsstring) : trim (trim s) = trim s.
Proof.
  unfold trim. rewrite trimStart_trimEnd.
  - apply trimEnd_idem.
  - apply drop_while_idem.
Qed.

Lemma trim_elem (s : jsstring) (c : N) : c ∈ trim s -> c ∈ s.
Proof.
  unfold trim. intros Hc.
  destruct (trimEnd_prefix (trimStart s)) as [k Hk].
  destruct (drop_while_suffix is_whitespace s) as [k' Hk'].
  rewrite Hk'. apply elem_of_app. right. fold (trimStart s).
  rewrite Hk. apply elem_of_app. left. exact Hc.
Qed.

Lemma split_no_comma (s : jsstring) :
  Forall (fun piece => comma ∉ piece) (split comma s).
Proof.
  induction s as [|c s IH]; cbn [split].
  - repeat constructor. apply not_elem_of_nil.
  - destruct (N.eqb_spec c comma) as [->|Hne].
    + constructor; [apply not_elem_of_nil | exact IH].
    + destruct (split comma s) as [|w ws].
      * repeat constructor. intros H. apply list_elem_of_singleton in H.
        congruence.
      * apply Forall_cons in IH as [Hw Hws]. constructor; [|exact Hws].
        intros H. apply elem_of_cons in H as [H|H]; [congruence | contradiction].
Qed.

Lemma pieces_tidy (input : jsstring) :
  Forall tidy (filter (fun v => nonempty v = true)
                      (map trim (split comma input))).
Proof.
  apply list.Forall_forall. intros c Hc.
  apply list_elem_of_filter in Hc as [Hne Hc].
  rewrite list_elem_of_In in Hc. apply in_map_iff in Hc as (p & <- & Hp).
  rewrite <- list_elem_of_In in Hp.
  split; [intros E; rewrite E in Hne; discriminate|]. split.
  - intros Hin. eapply (proj1 (list.Forall_forall _ _) (split_no_comma input));
      [exact Hp|]. apply trim_elem, Hin.
  - apply trim_idem.
Qed.

(** X4: whatever is typed, the codes read from a comma-separated field are
    tidy: none is empty, none contains a comma, none has white space at
    either end. *)
Theorem parse_datacenters_tidy (input : jsstring) :
  Forall tidy (VPSMonitorPage.parse_datacenters input)
  /\ Forall tidy (QueuePage.updateOptionsFromInput input).
Proof. split; apply pieces_tidy. Qed.

Lemma split_plain (x : jsstring) : comma ∉ x -> split comma x = [x].
Proof.
  induction x as [|c x IH]; intros Hx; cbn [split]; [reflexivity|].
  apply not_elem_of_cons in Hx as [Hc Hx].
  destruct (N.eqb_spec c comma) as [->|_]; [contradiction|].
  rewrite IH by exact Hx. reflexivity.
Qed.

Lemma split_app_comma (x r : jsstring) :
  comma ∉ x -> split comma (x ++ comma :: r) = x :: split comma r.
Proof.
  induction x as [|c x IH]; intros Hx; cbn [app split].
  - rewrite N.eqb_refl. reflexivity.
  - apply not_elem_of_cons in Hx as [Hc Hx].
    destruct (N.eqb_spec c comma) as [->|_]; [contradiction|].
    rewrite IH by exact Hx. reflexivity.
Qed.

Lemma js_comma_space : js ", " = [comma; 0x20%N].
Proof. reflexivity. Qed.

Lemma trim_after_space (y : jsstring) : trim (0x20%N :: y) = trim y.
Proof. reflexivity. Qed.

Lemma pieces_of_join (l : list jsstring) :
  Forall tidy l -> l <> [] ->
  map trim (split comma (join (js ", ") l)) = l.
Proof.
  induction 1 as [|x l (Hne & Hcomma & Htrim) Hl IH]; intros Hnil;
    [contradiction|].
  destruct l as [|y l].
  - cbn [join]. rewrite split_plain by exact Hcomma. cbn [map].
    rewrite Htrim. reflexivity.
  - specialize (IH ltac:(discriminate)).
    change (join (js ", ") (x :: y :: l))
      with (x ++ js ", " ++ join (js ", ") (y :: l)).
    rewrite js_comma_space in *. cbn [app].
    rewrite split_app_comma by exact Hcomma.
    cbn [split]. change (32 =? comma)%N with false. cbn iota.
    destruct (split comma (join [comma; 32%N] (y :: l))) as [|w ws];
      [discriminate IH|].
    cbn [map] in *. rewrite trim_after_space, Htrim. congruence.
Qed.

Lemma filter_tidy (l : list jsstring) :
  Forall tidy l -> filter (fun v => nonempty v = true) l = l.
Proof.
  induction 1 as [|x l (Hne & _) _ IH]; [reflexivity|].
  rewrite filter_cons, IH. destruct x; [contradiction|]. reflexivity.
Qed.

Lemma text_round_trip (k : list jsstring) :
  Forall tidy k ->
  filter (fun v => nonempty v = true)
         (map trim (split comma (join (js ", ") k))) = k.
Proof.
  intros Hk. destruct k as [|x k]; [reflexivity|].
  rewrite pieces_of_join by (exact Hk || discriminate).
  apply filter_tidy, Hk.
Qed.

(** X5: the text the queue page keeps for the selected options reads back
    as the selection: parsing the options joined with [", "] gives them
    back when they are tidy, so normalising a typed text twice changes
    nothing. *)
Theorem options_text_round_trip (l : list jsstring) (input : jsstring)
    (Hl : Forall tidy l) :
  QueuePage.updateOptionsFromInput (QueuePage.options_text l) = l
  /\ VPSMonitorPage.parse_datacenters (join (js ", ") l) = l
  /\ QueuePage.updateOptionsFromInput
       (QueuePage.options_text (QueuePage.updateOptionsFromInput input))
     = QueuePage.updateOptionsFromInput input.
Proof.
  split; [exact (text_round_trip l Hl)|].
  split; [exact (text_round_trip l Hl)|].
  apply text_round_trip, pieces_tidy.
Qed.
End CommaSeparated.

Section CommaSeparatedSample.
Import Shape MoreSamples.

Lemma options_text_round_trip_witness :
  QueuePage.updateOptionsFromInput (QueuePage.options_text two_options)
  = two_options.
Proof.
  refine (proj1 (options_text_round_trip two_options (js " a ,b") _)).
  repeat constructor; try discriminate;
    refine (bool_decide_unpack _ _); vm_compute; exact I.
Defined.
End CommaSeparatedSample.

(** ** The change history of a subscription *)

Section SubscriptionHistory.
Import VPSMonitorPage MoreSamples.

Lemma toggleHistory_open (p : HistoryPanel) (i : jsstring) (r : HistoryOutcome) :
  expandedHistory p <> Some i -> has_history p i = false ->
  toggleHistory p i r
  = loadHistory {| expandedHistory := Some i; historyData := historyData p |}
                i r.
Proof.
  intros Hc Hn. unfold toggleHistory.
  rewrite bool_decide_eq_false_2 by exact Hc. rewrite Hn. reflexivity.
Qed.

Lemma toggleHistory_close (p : HistoryPanel) (i : jsstring) (r : HistoryOutcome) :
  expandedHistory p = Some i ->
  toggleHistory p i r
  = {| panel := {| expandedHistory := None; historyData := historyData p |};
       history_sent := []; history_toasts := []; history_thrown := false |}.
Proof.
  intros Hc. unfold toggleHistory.
  rewrite bool_decide_eq_true_2 by exact Hc. reflexivity.
Qed.

Lemma toggleHistory_cached (p : HistoryPanel) (i : jsstring) (r : HistoryOutcome) :
  expandedHistory p <> Some i -> has_history p i = true ->
  toggleHistory p i r
  = {| panel := {| expandedHistory := Some i; historyData := historyData p |};
       history_sent := []; history_toasts := []; history_thrown := false |}.
Proof.
  intros Hc Hn. unfold toggleHistory.
  rewrite bool_decide_eq_false_2 by exact Hc. rewrite Hn. reflexivity.
Qed.

(** X6: the history of a subscription is fetched when its card is first
    opened and kept: closing the card and opening it again sends nothing
    and shows the same entries. *)
Theorem history_fetched_once (p : HistoryPanel) (i : jsstring)
    (h : list HistoryEntry) (r2 r3 : HistoryOutcome)
    (Hclosed : expandedHistory p <> Some i)
    (Hnone : has_history p i = false) :
  let o1 := toggleHistory p i (GotHistory (Some h)) in
  let o2 := toggleHistory (panel o1) i r2 in
  let o3 := toggleHistory (panel o2) i r3 in
  history_sent o1 = [history_request i]
  /\ history_area (panel o1) i
     = match h with [] => NoEntries | _ => Entries h end
  /\ history_sent o2 = [] /\ history_area (panel o2) i = Collapsed
  /\ history_sent o3 = [] /\ history_toasts o3 = []
  /\ history_area (panel o3) i = history_area (panel o1) i.
Proof.
  cbn zeta. rewrite (toggleHistory_open p i _ Hclosed Hnone).
  cbn [loadHistory panel history_sent].
  rewrite (toggleHistory_close _ i r2) by reflexivity.
  cbn [panel history_sent historyData].
  rewrite (toggleHistory_cached _ i r3);
    [| discriminate
     | unfold has_history; cbn [historyData]; rewrite lookup_insert_eq;
       reflexivity].
  cbn [panel history_sent history_toasts historyData].
  unfold history_area. cbn [expandedHistory historyData].
  rewrite !bool_decide_eq_true_2 by reflexivity.
  rewrite bool_decide_eq_false_2 by discriminate.
  rewrite lookup_insert_eq. destruct h; repeat split.
Qed.

Lemma history_fetched_once_witness :
  history_sent
    (toggleHistory
       (panel (toggleHistory
                 (panel (toggleHistory closed_panel (js "sub-1")
                           (GotHistory (Some one_change))))
                 (js "sub-1") NoHistory))
       (js "sub-1") NoHistory)
  = [].
Proof.
  refine (proj1 (proj2 (proj2 (proj2 (proj2
    (history_fetched_once closed_panel (js "sub-1") one_change
       NoHistory NoHistory _ _)))))).
  - discriminate.
  - reflexivity.
Defined.

(** X7: a history that could not be loaded is not kept.  When the request
    is rejected, one error toast is raised and the stored histories stay
    as they were; when the reply's data has no [history] field, no toast
    is raised.  In both cases the card opens with the "no history" text,
    closing it sends nothing and opening it again asks once more.  When
    the reply's data is undefined or null, no toast is raised either: the
    read throws inside the updater, after the [try] block, the error is
    not caught and nothing is stored.  The histories of the other
    subscriptions are never touched. *)
Theorem history_retried (p : HistoryPanel) (i : jsstring)
    (r r2 r3 : HistoryOutcome)
    (Hclosed : expandedHistory p <> Some i)
    (Hnone : has_history p i = false) :
  let o1 := toggleHistory p i r in
  let o2 := toggleHistory (panel o1) i r2 in
  let o3 := toggleHistory (panel o2) i r3 in
  history_sent o1 = [history_request i]
  /\ (forall j, j <> i -> historyData (panel o1) !! j = historyData p !! j)
  /\ (r = NoHistory ->
      map kind (history_toasts o1) = [Error]
      /\ history_thrown o1 = false
      /\ historyData (panel o1) = historyData p)
  /\ (r = GotHistory None ->
      history_toasts o1 = [] /\ history_thrown o1 = false)
  /\ (r = NoData ->
      history_toasts o1 = []
      /\ history_thrown o1 = true
      /\ historyData (panel o1) = historyData p)
  /\ (r = NoHistory \/ r = GotHistory None ->
      history_area (panel o1) i = NoEntries
      /\ history_sent o2 = []
      /\ history_sent o3 = [history_request i]).
Proof.
  cbn zeta. rewrite (toggleHistory_open p i _ Hclosed Hnone).
  assert (Hlook : forall v, historyData p !! i = v ->
                            match v with Some (Some _) => false | _ => true end
                            = true).
  { intros v <-. unfold has_history in Hnone.
    destruct (historyData p !! i) as [[?|]|]; try discriminate Hnone;
      reflexivity. }
  split; [destruct r; reflexivity|]. split.
  { intros j Hj. destruct r; cbn [loadHistory panel historyData];
      [apply lookup_insert_ne; congruence | reflexivity | reflexivity]. }
  split; [intros ->; repeat split|].
  split; [intros ->; repeat split|].
  split; [intros ->; repeat split|].
  intros [-> | ->]; cbn [loadHistory panel history_sent history_toasts].
  - rewrite (toggleHistory_close _ i r2) by reflexivity.
    cbn [panel history_sent historyData].
    rewrite (toggleHistory_open _ i r3);
      [| discriminate | exact Hnone].
    unfold history_area. cbn [expandedHistory historyData].
    rewrite bool_decide_eq_true_2 by reflexivity.
    specialize (Hlook _ eq_refl).
    destruct (historyData p !! i) as [[?|]|]; try discriminate Hlook;
      destruct r3; repeat split.
  - rewrite (toggleHistory_close _ i r2) by reflexivity.
    cbn [panel history_sent historyData].
    rewrite (toggleHistory_open _ i r3);
      [| discriminate
       | unfold has_history; cbn [historyData]; rewrite lookup_insert_eq;
         reflexivity].
    unfold history_area. cbn [expandedHistory historyData].
    rewrite bool_decide_eq_true_2 by reflexivity.
    rewrite lookup_insert_eq.
    split; [reflexivity|]. split; [reflexivity|]. destruct r3; reflexivity.
Qed.

Lemma history_retried_witness :
  history_sent
    (toggleHistory
       (panel (toggleHistory
                 (panel (toggleHistory closed_panel (js "sub-1") NoHistory))
                 (js "sub-1") NoHistory))
       (js "sub-1") (GotHistory (Some one_change)))
  = [history_request (js "sub-1")]
  /\ history_thrown (toggleHistory closed_panel (js "sub-1") NoData) = true
  /\ history_toasts (toggleHistory closed_panel (js "sub-1") NoData) = [].
Proof.
  pose proof (history_retried closed_panel (js "sub-1") NoHistory NoHistory
                (GotHistory (Some one_change))
                ltac:(discriminate) eq_refl) as (_ & _ & _ & _ & _ & H).
  pose proof (history_retried closed_panel (js "sub-1") NoData NoHistory
                NoHistory ltac:(discriminate) eq_refl)
    as (_ & _ & _ & _ & Hn & _).
  destruct (H (or_introl eq_refl)) as (_ & _ & H3).
  destruct (Hn eq_refl) as (Ht & Hth & _).
  split; [exact H3|]. split; [exact Hth | exact Ht].
Defined.
End SubscriptionHistory.

(** ** The dashboard *)

Section DashboardFacts.
Import Dashboard Shape MoreSamples.

(** X8: the dashboard shows at most three queue items, all of them active
    (running, pending or paused), in the order of the reply; when the reply
    holds at most three active items, it shows every one of them. *)
Theorem activeItems_shown (d : list QueueItem) :
  (length (activeItems d) <= 3)%nat
  /\ activeItems d `sublist_of` d
  /\ Forall (fun it => active (status it)) (activeItems d)
  /\ ((length (filter (fun it => active (status it)) d) <= 3)%nat ->
      activeItems d = filter (fun it => active (status it)) d).
Proof.
  unfold activeItems, active. repeat split.
  - rewrite length_take. lia.
  - etransitivity; [apply sublist_take | apply sublist_filter].
  - apply Forall_take, list.Forall_forall. intros it Hit.
    apply list_elem_of_filter in Hit. apply Hit.
  - intros Hlen. apply take_ge, Hlen.
Qed.

Lemma activeItems_shown_witness :
  activeItems two_active = [item "a" "running"; item "c" "paused"].
Proof.
  rewrite (proj2 (proj2 (proj2 (activeItems_shown two_active))));
    [reflexivity | vm_compute; lia].
Defined.

Lemma find_none {A} (f : A -> bool) (l : list A) :
  Forall (fun a => f a = false) l -> List.find f l = None.
Proof.
  induction 1 as [|a l Ha _ IH]; cbn [List.find]; [reflexivity|].
  rewrite Ha. exact IH.
Qed.

(** X9: an account label is never blank: without an id it is the default
    account's name, and with an id it is the alias of the first account of
    that id, or the id itself when no account has it or the alias is
    missing or empty. *)
Theorem getAccountLabel_shown (accounts : list jsval) (i : jsstring)
    (Hi : i <> []) :
  (forall o, truthy (getAccountLabel accounts o) = true)
  /\ getAccountLabel accounts None = JStr (js "默认账户")
  /\ getAccountLabel accounts (Some []) = JStr (js "默认账户")
  /\ (Forall (fun a => has_id i a = false) accounts ->
      getAccountLabel accounts (Some i) = JStr i)
  /\ (forall a, List.find (has_id i) accounts = Some a ->
      getAccountLabel accounts (Some i)
      = or_else (opt_member a (js "alias")) (JStr i)).
Proof.
  split; [|split; [reflexivity|split; [reflexivity|split]]].
  - intros [[|c o]|]; try reflexivity.
    unfold getAccountLabel. cbn [truthy_string from_option Datatypes.id].
    unfold or_else. destruct (truthy (opt_member _ _)) eqn:E; [exact E|].
    reflexivity.
  - intros Hnone. unfold getAccountLabel. destruct i; [contradiction|].
    cbn [truthy_string from_option Datatypes.id]. rewrite (find_none _ _ Hnone).
    reflexivity.
  - intros a Ha. unfold getAccountLabel. destruct i; [contradiction|].
    cbn [truthy_string from_option Datatypes.id]. rewrite Ha. reflexivity.
Qed.

Lemma getAccountLabel_shown_witness :
  getAccountLabel accounts (Some (js "acct_2")) = JStr (js "acct_2")
  /\ getAccountLabel accounts (Some (js "acct_9")) = JStr (js "acct_9").
Proof.
  pose proof (getAccountLabel_shown accounts (js "acct_2")
                ltac:(discriminate)) as (_ & _ & _ & _ & H2).
  pose proof (getAccountLabel_shown accounts (js "acct_9")
                ltac:(discriminate)) as (_ & _ & _ & H9 & _).
  split.
  - rewrite (H2 (obj [(js "id", JStr (js "acct_2"))])); reflexivity.
  - apply H9. repeat constructor.
Defined.
End DashboardFacts.

(** ** Sets of strings *)

Section SetFacts.
Import Shape.

Lemma array_includes_spec (l : list jsstring) (x : jsstring) :
  array_includes l x = true <-> x ∈ l.
Proof. unfold array_includes. apply bool_decide_eq_true. Qed.

Lemma first_occurrences_filter (P : jsstring -> Prop)
    `{!forall x, Decision (P x)} (l : list jsstring) :
  first_occurrences (filter P l) = filter P (first_occurrences l).
Proof.
  induction l as [|x l IH]; [reflexivity|].
  rewrite filter_cons. cbn [first_occurrences]. rewrite filter_cons.
  destruct (decide (P x)) as [Hx|Hx].
  - cbn [first_occurrences]. rewrite IH. f_equal.
    rewrite !list_filter_filter. apply list_filter_iff.
    intros y. split; intros [? ?]; split; assumption.
  - rewrite IH, list_filter_filter. apply list_filter_iff.
    intros y. split; [|intros [Hy _]; exact Hy]. intros Hy.
    split; [exact Hy|]. intros ->. contradiction.
Qed.

Lemma fold_Set_add (l acc : list jsstring) :
  fold_left Set_add l acc
  = acc ++ first_occurrences (filter (fun x => x ∉ acc) l).
Proof.
  revert acc. induction l as [|x l IH]; intros acc; cbn [fold_left].
  - rewrite filter_nil. cbn. rewrite app_nil_r. reflexivity.
  - rewrite IH, filter_cons. unfold Set_add, array_includes.
    destruct (decide (x ∈ acc)) as [Hin|Hout].
    + rewrite bool_decide_eq_true_2 by exact Hin.
      rewrite decide_False by tauto. reflexivity.
    + rewrite bool_decide_eq_false_2 by exact Hout.
      rewrite decide_True by exact Hout. cbn [first_occurrences].
      rewrite <- app_assoc. cbn [app]. do 2 f_equal.
      rewrite <- first_occurrences_filter, list_filter_filter.
      f_equal. apply list_filter_iff. intros y.
      rewrite not_elem_of_app, list_elem_of_singleton. tauto.
Qed.

Lemma Set_values_first_occurrences (l : list jsstring) :
  Set_values l = first_occurrences l.
Proof.
  unfold Set_values. rewrite fold_Set_add. cbn [app]. f_equal.
  induction l as [|x l IH]; [reflexivity|].
  rewrite filter_cons, decide_True by apply not_elem_of_nil.
  rewrite IH. reflexivity.
Qed.

Lemma first_occurrences_elem (l : list jsstring) (x : jsstring) :
  x ∈ first_occurrences l <-> x ∈ l.
Proof.
  induction l as [|y l IH]; [reflexivity|]. cbn [first_occurrences].
  rewrite !elem_of_cons, list_elem_of_filter, IH.
  destruct (decide (x = y)); tauto.
Qed.

Lemma first_occurrences_NoDup (l : list jsstring) : NoDup (first_occurrences l).
Proof.
  induction l as [|y l IH]; [constructor|]. cbn [first_occurrences].
  constructor; [|apply NoDup_filter, IH].
  intros H. apply list_elem_of_filter in H as [H _]. contradiction.
Qed.

Lemma filter_ne_id (y : jsstring) (l : list jsstring) :
  y ∉ l -> filter (fun z => z <> y) l = l.
Proof.
  induction l as [|z l IH]; intros Hy; [reflexivity|].
  apply not_elem_of_cons in Hy as [Hz Hy].
  rewrite filter_cons, decide_True by congruence. rewrite IH by exact Hy.
  reflexivity.
Qed.

Lemma first_occurrences_id (l : list jsstring) :
  NoDup l -> first_occurrences l = l.
Proof.
  induction 1 as [|y l Hy _ IH]; [reflexivity|]. cbn [first_occurrences].
  rewrite IH, filter_ne_id by exact Hy. reflexivity.
Qed.
End SetFacts.

(** ** More on the grouped history view *)

Section MoreGroupedHistory.
Import HistoryPage Spec Shape.
Variable getTime : jsstring -> option Z.
Variable toLocaleString : jsstring -> jsstring.

Implicit Types (l : list PurchaseHistory) (e : PurchaseHistory)
               (m : list (jsstring * list PurchaseHistory)).

Lemma Map_set_fresh {V} (k : jsstring) (v : V) (m : list (jsstring * V)) :
  Map_get k m = None -> Map_set k v m = m ++ [(k, v)].
Proof.
  induction m as [|[k0 v0] m IH]; cbn [Map_get Map_set app]; [reflexivity|].
  destruct (jsstring_eqb k0 k); [discriminate|]. intros H. rewrite IH by exact H.
  reflexivity.
Qed.

Lemma Map_set_concat {X} (k : jsstring) (arr x : list X)
    (m : list (jsstring * list X)) :
  Map_get k m = Some arr ->
  concat (Map_set k (arr ++ x) m).*2 ≡ₚ concat m.*2 ++ x.
Proof.
  induction m as [|[k0 v0] m IH]; cbn [Map_get Map_set]; [discriminate|].
  destruct (jsstring_eqb k0 k).
  - intros [= ->]. cbn. rewrite <- !app_assoc.
    apply Permutation_app_head, Permutation_app_comm.
  - intros H. cbn. rewrite IH by exact H. rewrite app_assoc. reflexivity.
Qed.

Lemma group_step_concat m e :
  concat (group_step m e).*2 ≡ₚ concat m.*2 ++ [e].
Proof.
  unfold group_step, Map_has.
  destruct (Map_get (group_key e) m) as [arr|] eqn:Hk.
  - rewrite Hk. apply Map_set_concat, Hk.
  - rewrite Map_get_set, decide_True by reflexivity.
    rewrite (Map_set_concat _ [] [e]);
      [|rewrite Map_get_set, decide_True by reflexivity; reflexivity].
    rewrite Map_set_fresh by exact Hk.
    rewrite fmap_app, concat_app. cbn. rewrite !app_nil_r. reflexivity.
Qed.

Lemma group_map_concat l : concat (group_map l).*2 ≡ₚ l.
Proof.
  unfold group_map.
  enough (H : forall m, concat (fold_left group_step l m).*2
                        ≡ₚ concat m.*2 ++ l) by apply (H []).
  induction l as [|e l IH]; intros m; cbn [fold_left].
  - rewrite app_nil_r. reflexivity.
  - rewrite IH, group_step_concat, <- app_assoc. reflexivity.
Qed.

Lemma concat_sorted (xs : list (jsstring * list PurchaseHistory)) :
  concat (map items
            (map (fun kv => {| key := fst kv;
                               items := sort (by_time_desc getTime) (snd kv) |})
                 xs))
  ≡ₚ concat xs.*2.
Proof.
  induction xs as [|[k v] xs IH]; [reflexivity|]. cbn.
  rewrite sort_perm. apply Permutation_app_head, IH.
Qed.

Lemma sum_group_sizes (gs : list Group) :
  sum_list (map (fun g => length (items g)) gs)
  = length (concat (map items gs)).
Proof.
  induction gs as [|g gs IH]; [reflexivity|].
  cbn. rewrite length_app, IH. reflexivity.
Qed.

Lemma groups_concat l : concat (map items (groups getTime l)) ≡ₚ l.
Proof. unfold groups. rewrite concat_sorted. apply group_map_concat. Qed.

Lemma groups_nonempty l : Forall (fun g => items g <> []) (groups getTime l).
Proof.
  apply list.Forall_forall. intros g Hg.
  apply (groups_elem getTime) in Hg as [Hne Hitems]. intros E.
  apply Hne, Permutation_nil.
  transitivity (sort (by_time_desc getTime) (bucket (key g) l));
    [rewrite <- Hitems, E; reflexivity | apply sort_perm].
Qed.

(** X10: grouping neither loses nor repeats an entry, whatever the
    entries are: the items of all groups together are the entries of the
    list, no group is empty, and the group sizes add up to the length of
    the list. *)
Theorem groups_conserve l :
  concat (map items (groups getTime l)) ≡ₚ l
  /\ Forall (fun g => items g <> []) (groups getTime l)
  /\ sum_list (map (fun g => length (items g)) (groups getTime l)) = length l.
Proof.
  split; [apply groups_concat|]. split; [apply groups_nonempty|].
  rewrite <- (Permutation_length (groups_concat l)). apply sum_group_sizes.
Qed.

Lemma status_counts l :
  (length (filter (fun x => status x = success) l)
   + length (filter (fun x => status x = failed) l))%nat = length l.
Proof.
  induction l as [|x l IH]; [reflexivity|]. rewrite !filter_cons.
  destruct (status x); repeat case_decide; try congruence; cbn; lia.
Qed.

(** X11: every group has a header, whose two counters add up to the size
    of the group: each entry is counted once, as a success or as a
    failure. *)
Theorem group_card_counts l :
  Forall (fun g => exists card,
            group_card toLocaleString g = Some card
            /\ (successCount card + failedCount card)%nat = length (items g)
            /\ Some (head card) = items g !! 0%nat)
         (groups getTime l).
Proof.
  eapply Forall_impl; [apply groups_nonempty|]. intros g Hg. unfold group_card.
  destruct (items g) as [|first rest] eqn:E; [contradiction|].
  destruct (last (first :: rest)) as [final|] eqn:Hlast.
  2:{ apply last_None in Hlast. discriminate Hlast. }
  rewrite last_lookup in Hlast.
  replace (length (first :: rest) - 1)%nat
    with (Init.Nat.pred (length (first :: rest))) by (cbn; lia).
  rewrite Hlast. cbn [lookup list_lookup mbind option_bind].
  eexists. split; [reflexivity|]. cbn [successCount failedCount head].
  split; [apply status_counts | reflexivity].
Qed.

Lemma group_step_keys m e :
  (group_step m e).*1 = Set_add m.*1 (group_key e).
Proof.
  unfold group_step, Map_has, Set_add, array_includes.
  destruct (Map_get (group_key e) m) as [arr|] eqn:Hk.
  - rewrite Hk, Map_set_keys. unfold Map_has. rewrite Hk.
    rewrite bool_decide_eq_true_2; [reflexivity|].
    destruct (decide (group_key e ∈ m.*1)) as [H|H]; [exact H|].
    apply Map_get_None_keys in H. congruence.
  - rewrite Map_get_set, decide_True by reflexivity.
    rewrite Map_set_keys. unfold Map_has.
    rewrite Map_get_set, decide_True by reflexivity.
    rewrite Map_set_keys. unfold Map_has. rewrite Hk.
    rewrite bool_decide_eq_false_2; [reflexivity|].
    apply Map_get_None_keys, Hk.
Qed.

(** X12: the groups come in the order in which their keys first occur in
    the list: the first entry's group is shown first. *)
Theorem groups_order l :
  map key (groups getTime l) = first_occurrences (map group_key l).
Proof.
  rewrite groups_keys, <- Set_values_first_occurrences.
  unfold group_map, Set_values.
  enough (H : forall m, (fold_left group_step l m).*1
                        = fold_left Set_add (map group_key l) m.*1)
    by apply (H []).
  induction l as [|e l IH]; intros m; cbn [fold_left map]; [reflexivity|].
  rewrite IH, group_step_keys. reflexivity.
Qed.
End MoreGroupedHistory.

(** ** Stability of the sort, and the filters of the history page *)

Section SortStability.
Context {A : Type} (compare : A -> A -> option Z).
Context (P : A -> Prop) `{!forall x, Decision (P x)}.

Lemma sort_insert_filter (x : A) (l : list A) :
  (forall y, y ∈ l -> P x -> P y -> sorts_after compare x y = false) ->
  filter P (sort_insert compare x l) = filter P (x :: l).
Proof.
  induction l as [|y l IH]; intros Hord; cbn [sort_insert]; [reflexivity|].
  destruct (sorts_after compare x y) eqn:E; [|reflexivity].
  rewrite filter_cons, IH by (intros z Hz; apply Hord; right; exact Hz).
  rewrite !(filter_cons _ x), (filter_cons _ y).
  destruct (decide (P x)) as [Hx|Hx]; [|reflexivity].
  destruct (decide (P y)) as [Hy|Hy]; [|reflexivity].
  rewrite (Hord y) in E by (left || assumption). discriminate E.
Qed.

Lemma sort_filter (l : list A) :
  (forall x y, x ∈ l -> y ∈ l -> P x -> P y ->
               sorts_after compare x y = false) ->
  filter P (sort compare l) = filter P l.
Proof.
  induction l as [|x l IH]; intros Hord; cbn [sort]; [reflexivity|].
  rewrite sort_insert_filter.
  - rewrite !filter_cons, IH; [reflexivity|].
    intros a b Ha Hb. apply Hord; right; assumption.
  - intros y Hy. rewrite sort_perm in Hy. apply Hord; [left | right; exact Hy].
Qed.
End SortStability.

Section HistoryOrder.
Import HistoryPage Spec.
Variable getTime : jsstring -> option Z.

(** X13: the sort inside a group is stable: for entries whose times are
    dates, the attempts of a task made at the same instant stay in the
    order they have in the list. *)
Theorem group_order_stable (l : list PurchaseHistory)
    (Hdated : Forall (dated getTime) l) :
  Forall (fun g => forall t,
            filter (fun e => getTime (purchaseTime e) = Some t) (items g)
            = filter (fun e => getTime (purchaseTime e) = Some t)
                     (filter (fun e => group_key e = key g) l))
         (groups getTime l).
Proof.
  apply list.Forall_forall. intros g Hg t.
  apply (groups_elem getTime) in Hg as [_ ->]. fold (bucket (key g) l).
  apply sort_filter. intros x y _ _ Hx Hy.
  unfold sorts_after, by_time_desc. rewrite Hx, Hy. cbn.
  rewrite Z.sub_diag. reflexivity.
Qed.

End HistoryOrder.

Section HistoryFilters.
Import HistoryPage.
Variable toLowerCase : jsstring -> jsstring.

Lemma List_filter_sublist {X} (f : X -> bool) (l : list X) :
  List.filter f l `sublist_of` l.
Proof.
  induction l as [|x l IH]; cbn [List.filter]; [constructor|].
  destruct (f x); [apply sublist_skip | apply sublist_cons]; exact IH.
Qed.

Lemma List_filter_elem {X} (f : X -> bool) (l : list X) (x : X) :
  x ∈ List.filter f l <-> x ∈ l /\ f x = true.
Proof. rewrite !list_elem_of_In. apply filter_In. Qed.


End HistoryFilters.

Section HistoryFilterSample.
Import HistoryPage Spec MoreSamples.

Lemma group_order_stable_witness :
  Forall (dated Samples.sample_getTime) tie_history
  /\ map id (concat (map items (groups Samples.sample_getTime tie_history)))
     = [js "h3"; js "h1"; js "h2"]
  /\ Forall (fun g => forall t,
       filter (fun e => Samples.sample_getTime (purchaseTime e) = Some t)
              (items g)
       = filter (fun e => Samples.sample_getTime (purchaseTime e) = Some t)
                (filter (fun e => group_key e = key g) tie_history))
     (groups Samples.sample_getTime tie_history).
Proof.
  assert (H : Forall (dated Samples.sample_getTime) tie_history)
    by (repeat constructor; eexists; reflexivity).
  split; [exact H|]. split; [reflexivity|].
  exact (group_order_stable Samples.sample_getTime tie_history H).
Defined.

End HistoryFilterSample.

(** ** Hardware replacement and the install progress *)

Section HardwareReplace.
Import ServerControlPage.

(** X15: a replacement is requested only for a selected server, a chosen
    component and a confirmed dialog.  The request then goes to that
    server's [hardware/replace] address with the chosen component; the
    details are sent only for memory and cooling, and an empty comment or
    an empty details text is left out. *)
Theorem hardware_replace_guard (st : State) (confirmed : bool) (reply : Outcome) :
  (is_Some (sent (handleHardwareReplace st confirmed reply)) <->
     is_Some (selectedServer st) /\ hardwareReplaceType st <> []
     /\ confirmed = true)
  /\ (forall req, sent (handleHardwareReplace st confirmed reply) = Some req ->
        exists server body,
          selectedServer st = Some server
          /\ method req = POST
          /\ url req = js "/server-control/" ++ serviceName server
                       ++ js "/hardware/replace"
          /\ data req = Some body
          /\ componentType body = hardwareReplaceType st
          /\ (forall d, details body = Some d ->
                d = hardwareReplaceDetails st /\ d <> []
                /\ (hardwareReplaceType st = js "memory"
                    \/ hardwareReplaceType st = js "cooling"))
          /\ (forall c, comment body = Some c ->
                c = hardwareReplaceComment st /\ c <> [])).
Proof.
  assert (Hor : forall s d, or_undefined s = Some d -> d = s /\ d <> []).
  { intros [|c s] d; cbn; [discriminate|]. intros [= <-]. split; [reflexivity|discriminate]. }
  unfold handleHardwareReplace.
  destruct (selectedServer st) as [server|] eqn:Hs;
    [destruct (hardwareReplaceType st) as [|c ty] eqn:Hty; [|destruct confirmed]|].
  - split; [|intros req [=]]. cbn [sent].
    split; [intros [? [=]] | intros (_ & H & _); contradiction].
  - assert (Hsent : sent
        (match reply with
         | Resolved response =>
             match member response (js "data")
                   ≫= (fun d => member d (js "success")) with
             | Some ok =>
                 if truthy ok
                 then {| sent := Some (replace_request server st);
                         state := settled st false;
                         toasts := [ {| kind := Success;
                                        title := JStr (js "硬件更换请求已提交成功");
                                        message := None |} ] |}
                 else {| sent := Some (replace_request server st);
                         state := settled st (showHardwareReplaceDialog st);
                         toasts := [] |}
             | None =>
                 {| sent := Some (replace_request server st);
                    state := settled st (showHardwareReplaceDialog st);
                    toasts := option_list (replace_failure type_error) |}
             end
         | Rejected error =>
             {| sent := Some (replace_request server st);
                state := settled st (showHardwareReplaceDialog st);
                toasts := option_list (replace_failure error) |}
         end) = Some (replace_request server st)).
    { destruct reply as [response|error]; [|reflexivity].
      destruct (member response (js "data") ≫= _) as [ok|]; [|reflexivity].
      destruct (truthy ok); reflexivity. }
    cbv zeta. rewrite Hsent. split.
    + split; [intros _; repeat split; eauto; discriminate | eauto].
    + intros req [= <-]. exists server. eexists.
      split; [reflexivity|]. split; [reflexivity|]. split; [reflexivity|].
      split; [reflexivity|]. cbn [componentType details comment].
      rewrite Hty. split; [reflexivity|]. split; [|apply Hor].
      intros d Hd.
      destruct (jsstring_eqb (c :: ty) (js "memory")) eqn:E1.
      * apply Hor in Hd as [-> Hne]. repeat split; try exact Hne.
        left. apply bool_decide_eq_true in E1. exact E1.
      * destruct (jsstring_eqb (c :: ty) (js "cooling")) eqn:E2.
        -- apply Hor in Hd as [-> Hne]. repeat split; try exact Hne.
           right. apply bool_decide_eq_true in E2. exact E2.
        -- discriminate Hd.
  - split; [|intros req [=]]. cbn [sent].
    split; [intros [? [=]] | intros (_ & _ & [=])].
  - split; [|intros req [=]]. cbn [sent].
    split; [intros [? [=]] | intros ([? [=]] & _)].
Qed.

(** X16: the handler never touches the selected server nor what was typed
    in the dialog, raises at most one toast, leaves [isProcessing] off
    after any request, and closes the dialog only when the reply reports
    success. *)
Theorem hardware_replace_outcome (st : State) (confirmed : bool) (reply : Outcome) :
  let r := handleHardwareReplace st confirmed reply in
  selectedServer (state r) = selectedServer st
  /\ hardwareReplaceType (state r) = hardwareReplaceType st
  /\ hardwareReplaceComment (state r) = hardwareReplaceComment st
  /\ hardwareReplaceDetails (state r) = hardwareReplaceDetails st
  /\ (length (toasts r) <= 1)%nat
  /\ (is_Some (sent r) -> isProcessing (state r) = false)
  /\ (showHardwareReplaceDialog (state r) <> showHardwareReplaceDialog st ->
      exists response d ok,
        reply = Resolved response
        /\ member response (js "data") = Some d
        /\ member d (js "success") = Some ok /\ truthy ok = true
        /\ showHardwareReplaceDialog (state r) = false
        /\ map kind (toasts r) = [Success]).
Proof.
  cbn zeta. unfold handleHardwareReplace.
  assert (Hidle : forall r : Handled,
            r = {| sent := None; state := st; toasts := [] |} ->
            selectedServer (state r) = selectedServer st
            /\ hardwareReplaceType (state r) = hardwareReplaceType st
            /\ hardwareReplaceComment (state r) = hardwareReplaceComment st
            /\ hardwareReplaceDetails (state r) = hardwareReplaceDetails st
            /\ (length (toasts r) <= 1)%nat
            /\ (is_Some (sent r) -> isProcessing (state r) = false)
            /\ (showHardwareReplaceDialog (state r)
                <> showHardwareReplaceDialog st ->
                exists response d ok,
                  reply = Resolved response
                  /\ member response (js "data") = Some d
                  /\ member d (js "success") = Some ok /\ truthy ok = true
                  /\ showHardwareReplaceDialog (state r) = false
                  /\ map kind (toasts r) = [Success])).
  { intros r ->. cbn [state toasts sent length]. repeat split; try lia.
    - intros [? [=]].
    - contradiction. }
  destruct (selectedServer st) as [server|] eqn:Hs; [|apply Hidle; reflexivity].
  destruct (hardwareReplaceType st) as [|c ty] eqn:Hty;
    [apply Hidle; reflexivity|].
  destruct confirmed; [|apply Hidle; reflexivity]. clear Hidle.
  cbv zeta.
  assert (Hfail : forall error, (length (option_list (replace_failure error)) <= 1)%nat)
    by (intros error; destruct (replace_failure error); cbn; lia).
  destruct reply as [response|error].
  - destruct (member response (js "data")) as [d|] eqn:Hd;
      cbn [mbind option_bind].
    + destruct (member d (js "success")) as [ok|] eqn:Hok.
      * destruct (truthy ok) eqn:Ht;
          cbn [state toasts sent settled selectedServer hardwareReplaceType
               hardwareReplaceComment hardwareReplaceDetails
               showHardwareReplaceDialog isProcessing length];
          do 4 (split; [first [reflexivity | assumption]|]); (split; [lia|]);
          (split; [intros _; reflexivity|]).
        -- intros _. exists response, d, ok. repeat split; assumption.
        -- contradiction.
      * cbn [state toasts sent settled selectedServer hardwareReplaceType
             hardwareReplaceComment hardwareReplaceDetails
             showHardwareReplaceDialog isProcessing].
        do 4 (split; [first [reflexivity | assumption]|]). split; [apply Hfail|].
        split; [intros _; reflexivity | contradiction].
    + cbn [state toasts sent settled selectedServer hardwareReplaceType
           hardwareReplaceComment hardwareReplaceDetails
           showHardwareReplaceDialog isProcessing].
      do 4 (split; [first [reflexivity | assumption]|]). split; [apply Hfail|].
      split; [intros _; reflexivity | contradiction].
  - cbn [state toasts sent settled selectedServer hardwareReplaceType
         hardwareReplaceComment hardwareReplaceDetails
         showHardwareReplaceDialog isProcessing].
    do 4 (split; [first [reflexivity | assumption]|]). split; [apply Hfail|].
    split; [intros _; reflexivity | contradiction].
Qed.

(** X17: of [adjustPollingInterval] taken alone: the interval it chooses
    from the progress never grows when the progress rises and stays
    between one and five seconds.  A call that sees no timer sets nothing
    up; a call that sees one replaces it exactly when the timer does not
    show the chosen interval already, and the replacement is created with
    the chosen interval. *)
Theorem polling_interval_monotone (p q : Z) (timer : option Z) :
  (p <= q -> polling_interval q <= polling_interval p)
  /\ 1000 <= polling_interval p <= 5000
  /\ adjustPollingInterval None p = None
  /\ (is_Some (adjustPollingInterval (Some timer) p)
      <-> timer <> Some (polling_interval p))
  /\ (forall t, adjustPollingInterval (Some timer) p = Some t ->
        t = polling_interval p)
  /\ adjustPollingInterval (Some None) p = Some (polling_interval p).
Proof.
  split; [|split; [|split; [reflexivity|]]].
  - unfold polling_interval.
    repeat match goal with
           | |- context [?a <=? ?b] => destruct (Z.leb_spec a b)
           end; lia.
  - unfold polling_interval.
    repeat match goal with
           | |- context [?a <=? ?b] => destruct (Z.leb_spec a b)
           end; lia.
  - unfold adjustPollingInterval. cbv zeta. split; [|split].
    + case_bool_decide as Hd; split.
      * intros _. exact Hd.
      * intros _. eexists. reflexivity.
      * intros [? [=]].
      * intros Hne. contradiction.
    + intros t. case_bool_decide; [intros [= <-]; reflexivity | discriminate].
    + rewrite bool_decide_eq_true_2 by discriminate. reflexivity.
Qed.
End HardwareReplace.

(** ** Toasts *)

Section Toasts.
Import ToastContainer.

(** X18: closing a toast removes the toasts carrying its id and nothing
    else, the others keeping their order.  The id is the time of creation
    in milliseconds, so a toast whose id is fresh is removed alone, while
    two toasts raised within the same millisecond share an id and are
    closed together. *)
Theorem removeToast_by_id (now : Z) (a b : Toast) (i : jsstring)
    (l : list (jsstring * Toast)) :
  (forall t, t ∈ removeToast i l <-> t ∈ l /\ fst t <> i)
  /\ removeToast i l `sublist_of` l
  /\ (Forall (fun t => fst t <> string_of_number now) l ->
      removeToast (string_of_number now) (showToast now a l) = l)
  /\ removeToast (string_of_number now) (showToast now b (showToast now a l))
     = removeToast (string_of_number now) l.
Proof.
  unfold removeToast, showToast. split; [|split; [|split]].
  - intros t. rewrite list_elem_of_filter. tauto.
  - apply sublist_filter.
  - intros Hfresh. rewrite filter_app, filter_cons, filter_nil.
    rewrite decide_False by (cbn; tauto). rewrite app_nil_r.
    induction Hfresh as [|t l Ht _ IH]; [reflexivity|].
    rewrite filter_cons, decide_True by exact Ht. rewrite IH. reflexivity.
  - rewrite !filter_app, !filter_cons, !filter_nil.
    rewrite !decide_False by (cbn; tauto). rewrite !app_nil_r. reflexivity.
Qed.
End Toasts.

(** ** Picking and ordering datacenters *)

Section DatacenterPicker.
Import QueuePage Shape MoreSamples.

Lemma indexOf_None (l : list jsstring) (x : jsstring) :
  indexOf l x = None <-> x ∉ l.
Proof.
  induction l as [|y l IH]; cbn [indexOf].
  - split; [intros _; apply not_elem_of_nil | reflexivity].
  - unfold jsstring_eqb. rewrite not_elem_of_cons.
    destruct (decide (y = x)) as [->|Hne].
    + rewrite bool_decide_eq_true_2 by reflexivity.
      split; [discriminate | intros [H _]; contradiction].
    + rewrite bool_decide_eq_false_2 by exact Hne.
      destruct (indexOf l x); cbn; split; try discriminate.
      * intros [_ H]. apply IH in H. discriminate H.
      * intros _. split; [congruence | apply IH; reflexivity].
      * reflexivity.
Qed.

Lemma indexOf_Some (l : list jsstring) (x : jsstring) (i : nat) :
  indexOf l x = Some i -> l !! i = Some x /\ x ∉ take i l.
Proof.
  revert i. induction l as [|y l IH]; intros i; cbn [indexOf]; [discriminate|].
  unfold jsstring_eqb. destruct (decide (y = x)) as [->|Hne].
  - rewrite bool_decide_eq_true_2 by reflexivity. intros [= <-].
    split; [reflexivity | apply not_elem_of_nil].
  - rewrite bool_decide_eq_false_2 by exact Hne.
    destruct (indexOf l x) as [j|]; cbn; [|discriminate]. intros [= <-].
    destruct (IH j eq_refl) as [Hl Ht]. split; [exact Hl|].
    cbn. apply not_elem_of_cons. split; [congruence | exact Ht].
Qed.

Lemma indexOf_elem (l : list jsstring) (x : jsstring) :
  x ∈ l -> exists i, indexOf l x = Some i.
Proof.
  intros Hx. destruct (indexOf l x) as [i|] eqn:E; [eauto|].
  apply indexOf_None in E. contradiction.
Qed.

Lemma indexOf_at (l : list jsstring) (x : jsstring) (i : nat) :
  NoDup l -> l !! i = Some x -> indexOf l x = Some i.
Proof.
  intros Hnd Hi.
  destruct (indexOf_elem l x) as [j Hj];
    [apply list_elem_of_lookup; eauto|].
  destruct (indexOf_Some _ _ _ Hj) as [Hlj _].
  rewrite Hj. f_equal. eapply NoDup_lookup; eauto.
Qed.

(** X19: clicking a datacenter flips its selection and nothing else: the
    other datacenters stay selected in their order, a selection without
    repeats stays without repeats, and a datacenter that is picked again
    after being dropped comes back at the end, as the last choice. *)
Theorem handleDatacenterChange_flips (dcCode : jsstring) (prev : list jsstring)
    (Hnd : NoDup prev) :
  let next := handleDatacenterChange dcCode prev in
  NoDup next
  /\ (dcCode ∈ next <-> dcCode ∉ prev)
  /\ filter (fun d => d <> dcCode) next = filter (fun d => d <> dcCode) prev
  /\ handleDatacenterChange dcCode next
     = (if decide (dcCode ∈ prev)
        then filter (fun d => d <> dcCode) prev ++ [dcCode]
        else prev).
Proof.
  cbn zeta. unfold handleDatacenterChange, array_includes.
  assert (Hout : dcCode ∉ filter (fun d => d <> dcCode) prev).
  { intros H. apply list_elem_of_filter in H as [H _]. contradiction. }
  destruct (decide (dcCode ∈ prev)) as [Hin|Hnin].
  - rewrite (bool_decide_eq_true_2 _ Hin).
    rewrite (bool_decide_eq_false_2 _ Hout).
    split; [apply NoDup_filter, Hnd|]. split; [tauto|].
    split; [|reflexivity].
    rewrite list_filter_filter. apply list_filter_iff. tauto.
  - rewrite (bool_decide_eq_false_2 _ Hnin).
    assert (Hlast : dcCode ∈ prev ++ [dcCode])
      by (apply elem_of_app; right; left).
    rewrite (bool_decide_eq_true_2 _ Hlast).
    split.
    { apply NoDup_app. split; [exact Hnd|]. split; [|apply NoDup_singleton].
      intros x Hx Hx'. apply list_elem_of_singleton in Hx' as ->. contradiction. }
    split; [tauto|].
    rewrite filter_app, filter_cons, filter_nil, decide_False by tauto.
    rewrite app_nil_r. split; [reflexivity|]. apply filter_ne_id, Hnin.
Qed.

Lemma handleDatacenterChange_flips_witness :
  handleDatacenterChange (js "rbx")
    (handleDatacenterChange (js "rbx") picked)
  = [js "gra"; js "bhs"; js "rbx"].
Proof.
  assert (Hnd : NoDup picked)
    by (refine (bool_decide_unpack _ _); vm_compute; exact I).
  pose proof (handleDatacenterChange_flips (js "rbx") picked Hnd)
    as (_ & _ & _ & H).
  rewrite H. reflexivity.
Defined.

(** X20: dragging a selected datacenter over another one moves it to the
    place of the other and shifts the ones in between: the selection keeps
    the same datacenters, without repeats, and the dragged one ends at the
    position the other had.  Nothing moves if either is not selected. *)
Theorem drag_over_moves (d dc : jsstring) (prev : list jsstring)
    (Hnd : NoDup prev) (Hd : d ∈ prev) (Hdc : dc ∈ prev) :
  let next := drag_over d dc prev in
  next ≡ₚ prev
  /\ NoDup next
  /\ length next = length prev
  /\ indexOf next d = indexOf prev dc
  /\ (forall x, x ∉ prev -> drag_over x dc prev = prev
                           /\ drag_over d x prev = prev).
Proof.
  cbn zeta. unfold drag_over.
  destruct (indexOf_elem prev d Hd) as [from Hfrom].
  destruct (indexOf_elem prev dc Hdc) as [to Hto].
  rewrite Hfrom, Hto.
  destruct (indexOf_Some _ _ _ Hfrom) as [Hlf _].
  destruct (indexOf_Some _ _ _ Hto) as [Hlt _].
  assert (Hto_len : (to < length prev)%nat) by (eapply lookup_lt_Some; eauto).
  assert (Hfrom_len : (from < length prev)%nat) by (eapply lookup_lt_Some; eauto).
  assert (Hdel : length (delete from prev) = Init.Nat.pred (length prev)).
  { rewrite length_delete; [lia|]. eauto. }
  assert (Hperm : splice_in to d (splice_out from prev) ≡ₚ prev).
  { unfold splice_in, splice_out.
    rewrite <- Permutation_middle, take_drop.
    symmetry. apply delete_Permutation, Hlf. }
  assert (Hnd' : NoDup (splice_in to d (splice_out from prev)))
    by (rewrite Hperm; exact Hnd).
  split; [exact Hperm|]. split; [exact Hnd'|].
  split; [apply Permutation_length, Hperm|]. split.
  - apply indexOf_at; [exact Hnd'|]. unfold splice_in, splice_out.
    rewrite lookup_app_r by (rewrite length_take; lia).
    rewrite length_take, Nat.min_l by lia. rewrite Nat.sub_diag. reflexivity.
  - intros x Hx. apply indexOf_None in Hx. rewrite Hx.
    split; [reflexivity|]. destruct (indexOf prev d); reflexivity.
Qed.

Lemma drag_over_moves_witness :
  drag_over (js "bhs") (js "gra") picked = [js "bhs"; js "gra"; js "rbx"]
  /\ indexOf (drag_over (js "bhs") (js "gra") picked) (js "bhs")
     = indexOf picked (js "gra").
Proof.
  split; [reflexivity|].
  refine (proj1 (proj2 (proj2 (proj2
    (drag_over_moves (js "bhs") (js "gra") picked _ _ _)))));
    refine (bool_decide_unpack _ _); vm_compute; exact I.
Defined.

Lemma table_codes_NoDup :
  NoDup (map OvhConstants.code OvhConstants.OVH_DATACENTERS).
Proof. refine (bool_decide_unpack _ _); vm_compute; exact I. Qed.

(** X21: "select all" selects every offered datacenter once, in the order
    offered; when nothing is offered (no plan found, or an empty offer) it
    selects the twelve datacenters of the table in the table's order. *)
Theorem selectAllDatacenters_all (visible : list jsstring) :
  NoDup (selectAllDatacenters (Some visible))
  /\ (visible <> [] ->
      selectAllDatacenters (Some visible) = first_occurrences visible
      /\ forall x, x ∈ selectAllDatacenters (Some visible) <-> x ∈ visible)
  /\ (visible <> [] -> NoDup visible ->
      selectAllDatacenters (Some visible) = visible)
  /\ selectAllDatacenters None
     = map OvhConstants.code OvhConstants.OVH_DATACENTERS
  /\ selectAllDatacenters (Some [])
     = map OvhConstants.code OvhConstants.OVH_DATACENTERS
  /\ length (selectAllDatacenters None) = 12%nat.
Proof.
  assert (Htable : Set_values (map OvhConstants.code OvhConstants.OVH_DATACENTERS)
                   = map OvhConstants.code OvhConstants.OVH_DATACENTERS).
  { rewrite Set_values_first_occurrences.
    apply first_occurrences_id, table_codes_NoDup. }
  unfold selectAllDatacenters.
  split; [|split; [|split; [|split; [exact Htable|split; [exact Htable|]]]]].
  - destruct visible; rewrite Set_values_first_occurrences;
      apply first_occurrences_NoDup.
  - intros Hne. destruct visible as [|v vs]; [contradiction|].
    rewrite Set_values_first_occurrences. split; [reflexivity|].
    intros x. apply first_occurrences_elem.
  - intros Hne Hnd. destruct visible as [|v vs]; [contradiction|].
    rewrite Set_values_first_occurrences. apply first_occurrences_id, Hnd.
  - rewrite Htable. reflexivity.
Qed.

(** X22: the status a queue item is switched to is always [running] or
    [paused]: a running item is paused, every other item is set running,
    so switching a running or a paused item twice gives its status back. *)
Theorem next_status_toggles (s : jsstring) :
  (fst (next_status s) = js "paused" <-> s = js "running")
  /\ (fst (next_status s) = js "running" <-> s <> js "running")
  /\ (s = js "running" \/ s = js "paused" ->
      fst (next_status (fst (next_status s))) = s)
  /\ (forall i, data (status_request i s) = Some (fst (next_status s))).
Proof.
  assert (Hrp : js "running" <> js "paused") by (vm_compute; discriminate).
  split; [|split; [|split; [|reflexivity]]].
  - unfold next_status, jsstring_eqb. repeat case_bool_decide; cbn [fst];
      subst; split; intros ?; congruence.
  - unfold next_status, jsstring_eqb. repeat case_bool_decide; cbn [fst];
      subst; split; intros ?; congruence.
  - intros [-> | ->]; vm_compute; reflexivity.
Qed.
End DatacenterPicker.

(** ** Creating and editing queue tasks *)

Section QueueForm.
Import QueuePage Shape MoreSamples.

Lemma first_check (f : Form) :
  negb (nonempty (trim (planCodeInput f)))
  || bool_decide (length (selectedDatacenters f) = 0%nat) = false
  <-> trim (planCodeInput f) <> [] /\ selectedDatacenters f <> [].
Proof.
  rewrite orb_false_iff, negb_false_iff, bool_decide_eq_false.
  destruct (trim (planCodeInput f)), (selectedDatacenters f); cbn;
    intuition (discriminate || congruence).
Qed.

Lemma quantity_check (q : Z) :
  (q <? 1) || (100 <? q) = false <-> 1 <= q <= 100.
Proof. rewrite orb_false_iff, !Z.ltb_ge. lia. Qed.

Lemma interval_check (n : Z) : (n <=? 0) = false <-> 0 < n.
Proof. apply Z.leb_gt. Qed.

Lemma addQueueItem_sent (f : Form) (reply : Outcome) :
  passes f ->
  sent (addQueueItem f reply)
  = Some {| method := POST; url := js "/queue"; params := [];
            data := Some (task_body f) |}.
Proof.
  intros (H1 & H2 & H3 & H4). unfold addQueueItem.
  rewrite (proj2 (first_check f)) by tauto.
  rewrite (proj2 (quantity_check _) H3), (proj2 (interval_check _) H4).
  destruct reply; reflexivity.
Qed.

Lemma addQueueItem_refused (f : Form) (reply : Outcome) :
  ~ passes f ->
  sent (addQueueItem f reply) = None /\ form (addQueueItem f reply) = f
  /\ map kind (toasts (addQueueItem f reply)) = [Error].
Proof.
  intros Hn. unfold addQueueItem.
  destruct (negb _ || bool_decide _) eqn:E1; [repeat split|].
  apply first_check in E1.
  destruct ((quantity f <? 1) || (100 <? quantity f)) eqn:E2; [repeat split|].
  apply quantity_check in E2.
  destruct (retryInterval f <=? 0) eqn:E3; [repeat split|].
  apply interval_check in E3. exfalso. apply Hn. unfold passes. tauto.
Qed.

(** C1 as stated does not hold on the client: a task whose interval is 14
    seconds, which [validateRetryInterval] refuses, is not rejected.  The
    form posts it as it stands and, once the server has taken it, reports
    it as created. *)
Lemma interval_14_not_rejected :
  retryInterval floor_form = 14
  /\ Constants.validateRetryInterval (retryInterval floor_form) = false
  /\ sent (addQueueItem floor_form (Resolved JNull)) <> None
  /\ sent (addQueueItem floor_form (Resolved JNull))
     = Some {| method := POST; url := js "/queue"; params := [];
               data := Some (task_body floor_form) |}
  /\ body_retryInterval (task_body floor_form) = 14
  /\ map kind (toasts (addQueueItem floor_form (Resolved JNull))) = [Success].
Proof. repeat split. discriminate. Qed.

(** C1, amended: [validateRetryInterval] has the 15-second floor: it
    refuses every integer below [MIN_RETRY_INTERVAL], 14 among them, and
    accepts 15.  The queue form does not reject a task on that ground: of
    an interval below the floor it refuses only those that are not above
    zero, and posts the others unchanged, with a warning under the field;
    at 15 there is no note. *)
Theorem validateRetryInterval_floor (n : Z)
    (Hn : n < Constants.MIN_RETRY_INTERVAL) :
  Constants.validateRetryInterval n = false
  /\ Constants.validateRetryInterval 15 = true
  /\ Constants.validateRetryInterval 14 = false
  /\ Constants.MIN_RETRY_INTERVAL = 15
  /\ (forall (f : Form) (reply : Outcome),
        retryInterval f = n ->
        trim (planCodeInput f) <> [] -> selectedDatacenters f <> [] ->
        1 <= quantity f <= 100 ->
        (0 < n ->
         sent (addQueueItem f reply)
         = Some {| method := POST; url := js "/queue"; params := [];
                   data := Some (task_body f) |}
         /\ body_retryInterval (task_body f) = n)
        /\ (n <= 0 ->
            sent (addQueueItem f reply) = None
            /\ map title (toasts (addQueueItem f reply))
               = [JStr (js "重试间隔必须大于 0 秒")]))
  /\ (0 < n ->
      interval_notes n
      = [js "⚠️ 间隔时间过短可能导致API过载，建议设置为 "
         ++ string_of_number Constants.TASK_RETRY_INTERVAL
         ++ js " 秒或更长"])
  /\ (n <= 0 -> interval_notes n = [js "⚠️ 重试间隔必须大于 0"])
  /\ interval_notes 15 = [].
Proof.
  split; [apply validateRetryInterval_below, Hn|].
  do 3 (split; [reflexivity|]).
  unfold Constants.MIN_RETRY_INTERVAL in Hn.
  split; [|split; [|split; [|reflexivity]]].
  - intros f reply Hf Hplan Hdcs Hq. split.
    + intros Hpos. rewrite addQueueItem_sent; [split; [reflexivity|exact Hf]|].
      unfold passes. rewrite Hf. tauto.
    + intros Hneg. unfold addQueueItem.
      rewrite (proj2 (first_check f)) by tauto.
      rewrite (proj2 (quantity_check _) Hq).
      rewrite Hf, (proj2 (Z.leb_le n 0) Hneg). split; reflexivity.
  - intros Hpos. unfold interval_notes, Constants.MIN_RETRY_INTERVAL.
    rewrite (proj2 (Z.ltb_lt 0 n) Hpos), (proj2 (Z.ltb_lt n 15) Hn).
    rewrite (proj2 (Z.leb_gt n 0) Hpos). reflexivity.
  - intros Hneg. unfold interval_notes.
    rewrite (proj2 (Z.ltb_ge 0 n) Hneg), (proj2 (Z.leb_le n 0) Hneg).
    reflexivity.
Qed.

Lemma validateRetryInterval_floor_witness :
  Constants.validateRetryInterval 14 = false
  /\ sent (addQueueItem floor_form (Rejected JNull))
     = Some {| method := POST; url := js "/queue"; params := [];
               data := Some (task_body floor_form) |}
  /\ length (interval_notes 14) = 1%nat.
Proof.
  pose proof (validateRetryInterval_floor 14 ltac:(reflexivity))
    as (Hv & _ & _ & _ & Hform & Hnote & _).
  split; [exact Hv|]. split.
  - apply (Hform floor_form (Rejected JNull) eq_refl);
      [vm_compute; discriminate | discriminate | cbn; lia | lia].
  - rewrite (Hnote ltac:(lia)). reflexivity.
Defined.


(** X24: the page's check on the interval is looser than
    [validateRetryInterval]: a form that passes the other checks is posted
    for every interval the validator accepts, and also for the intervals
    from 1 to 14 seconds, which the validator refuses. *)
Theorem addQueueItem_interval (f : Form) (reply : Outcome)
    (Hplan : trim (planCodeInput f) <> [])
    (Hdcs : selectedDatacenters f <> [])
    (Hq : 1 <= quantity f <= 100) :
  (Constants.validateRetryInterval (retryInterval f) = true ->
   is_Some (sent (addQueueItem f reply)))
  /\ (1 <= retryInterval f < Constants.MIN_RETRY_INTERVAL ->
      Constants.validateRetryInterval (retryInterval f) = false
      /\ exists req body,
           sent (addQueueItem f reply) = Some req /\ data req = Some body
           /\ body_retryInterval body = retryInterval f).
Proof.
  split.
  - intros Hv. apply validateRetryInterval_spec in Hv.
    rewrite addQueueItem_sent; [eauto|]. unfold passes. repeat split; tauto || lia.
  - unfold Constants.MIN_RETRY_INTERVAL. intros Hn. split.
    + apply not_true_is_false. rewrite validateRetryInterval_spec. lia.
    + rewrite addQueueItem_sent by (unfold passes; repeat split; tauto || lia).
      eexists _, _. repeat split.
Qed.

Lemma addQueueItem_interval_witness :
  (exists req body,
     sent (addQueueItem quick_form (Resolved JNull)) = Some req
     /\ data req = Some body /\ body_retryInterval body = 10)
  /\ Constants.validateRetryInterval 10 = false.
Proof.
  pose proof (addQueueItem_interval quick_form (Resolved JNull)
                ltac:(vm_compute; discriminate) ltac:(discriminate)
                ltac:(cbn; lia)) as [_ H].
  destruct (H ltac:(cbn; unfold Constants.MIN_RETRY_INTERVAL; lia))
    as [Hv Hsent].
  split; [exact Hsent | exact Hv].
Defined.



(** X26: taking a queue item into the form always yields a quantity from 1
    to 100 (the item's own when it is in that range, 1 when it is missing
    or zero) and an interval that is not zero (30 when the item has none);
    the options text is the item's options joined, which read back as the
    same options when they are tidy; the selected datacenters are not
    changed at once. *)
Theorem beginEditQueueItem_form (f : Form) (it : EditedItem) :
  let g := beginEditQueueItem f it in
  1 <= quantity g <= 100
  /\ (forall q, item_quantity it = Some q -> 1 <= q <= 100 -> quantity g = q)
  /\ (item_quantity it = None \/ item_quantity it = Some 0 -> quantity g = 1)
  /\ retryInterval g <> 0
  /\ (item_retryInterval it = None \/ item_retryInterval it = Some 0 ->
      retryInterval g = Constants.TASK_RETRY_INTERVAL)
  /\ editingItemId g = Some (item_id it)
  /\ optionsInput g = options_text (selectedOptions g)
  /\ (Forall tidy (selectedOptions g) ->
      updateOptionsFromInput (optionsInput g) = selectedOptions g)
  /\ selectedDatacenters g = selectedDatacenters f.
Proof.
  cbn zeta. unfold beginEditQueueItem.
  cbn [quantity retryInterval editingItemId optionsInput selectedOptions
       selectedDatacenters].
  split; [lia|]. split.
  { intros q -> Hq. unfold number_or. destruct (Z.eqb_spec q 0); lia. }
  split; [intros [-> | ->]; reflexivity|]. split.
  { unfold number_or, Constants.TASK_RETRY_INTERVAL.
    destruct (item_retryInterval it) as [v|]; [|discriminate].
    destruct (Z.eqb_spec v 0); [discriminate | assumption]. }
  split; [intros [-> | ->]; reflexivity|].
  split; [reflexivity|]. split; [reflexivity|]. split; [|reflexivity].
  intros Ht. apply (text_round_trip _ Ht).
Qed.

Lemma beginEditQueueItem_form_witness :
  quantity (beginEditQueueItem quick_form stored_item) = 100
  /\ retryInterval (beginEditQueueItem quick_form stored_item) = 30
  /\ updateOptionsFromInput
       (optionsInput (beginEditQueueItem quick_form stored_item))
     = two_options.
Proof.
  pose proof (beginEditQueueItem_form quick_form stored_item)
    as (_ & _ & _ & _ & Hi & _ & _ & Ho & _).
  split; [reflexivity|]. split; [apply Hi; right; reflexivity|].
  apply Ho. repeat constructor; try discriminate;
    refine (bool_decide_unpack _ _); vm_compute; exact I.
Defined.

(** X27: saving an edited item checks the plan code and the datacenters
    only: with an item under edit, the update is sent whatever the
    quantity and the interval are, also for values with which the same
    form would be refused as a new task. *)
Theorem updateQueueItem_unchecked (f : Form) (i : jsstring) (reply : Outcome)
    (Hedit : editingItemId f = Some i) (Hi : i <> [])
    (Hplan : trim (planCodeInput f) <> [])
    (Hdcs : selectedDatacenters f <> []) :
  updateQueueItem f
  = Some (Some {| method := PUT; url := js "/queue/" ++ i; params := [];
                  data := Some (task_body f) |})
  /\ (quantity f < 1 \/ 100 < quantity f \/ retryInterval f <= 0 ->
      sent (addQueueItem f reply) = None).
Proof.
  split.
  - unfold updateQueueItem. rewrite Hedit. destruct i; [contradiction|].
    rewrite (proj2 (first_check f)) by tauto. reflexivity.
  - intros H. apply addQueueItem_refused. unfold passes. lia.
Qed.

Lemma updateQueueItem_unchecked_witness :
  (exists req body, updateQueueItem edited_form = Some (Some req)
                    /\ data req = Some body /\ body_quantity body = 500)
  /\ sent (addQueueItem edited_form (Resolved JNull)) = None.
Proof.
  pose proof (updateQueueItem_unchecked edited_form (js "task-7")
                (Resolved JNull) eq_refl ltac:(discriminate)
                ltac:(vm_compute; discriminate) ltac:(discriminate))
    as [Hu Ha].
  split.
  - eexists _, _. split; [exact Hu|]. split; reflexivity.
  - apply Ha. right. left. cbn. lia.
Defined.
End QueueForm.


(** ** Offered datacenters and option groups *)

Section Offer.
Import QueuePage Shape MoreSamples.
Variable toLowerCase : jsstring -> jsstring.

Lemma List_filter_as_filter {X} (f : X -> bool) (l : list X) :
  List.filter f l = filter (fun x => f x = true) l.
Proof.
  induction l as [|x l IH]; [reflexivity|]. cbn [List.filter].
  rewrite filter_cons, IH. destruct (f x); reflexivity.
Qed.

Lemma concat_without_empty {X Y} (xs : list (Y * list X)) :
  concat (map snd (List.filter
                     (fun b => negb (bool_decide (length (snd b) = 0%nat))) xs))
  = concat (map snd xs).
Proof.
  induction xs as [|[y [|x l]] xs IH]; [reflexivity| |]; simpl;
    rewrite <- IH; reflexivity.
Qed.

Lemma region_codes_NoDup : NoDup (concat (map snd DATACENTER_REGIONS)).
Proof. refine (bool_decide_unpack _ _); vm_compute; exact I. Qed.

Lemma table_codes_in_regions :
  Forall (fun c => c ∈ concat (map snd DATACENTER_REGIONS))
         (map OvhConstants.code OvhConstants.OVH_DATACENTERS).
Proof. refine (bool_decide_unpack _ _); vm_compute; exact I. Qed.

Lemma ynm_not_in_table :
  js "ynm" ∉ map OvhConstants.code OvhConstants.OVH_DATACENTERS.
Proof. refine (bool_decide_unpack _ _); vm_compute; exact I. Qed.

Lemma region_blocks_concat (v : list jsstring) :
  concat (map snd (region_blocks (Some v)))
  = filter (fun c => c ∈ v) (concat (map snd DATACENTER_REGIONS)).
Proof.
  unfold region_blocks. rewrite concat_without_empty.
  unfold DATACENTER_REGIONS. cbn [map fst snd concat from_option].
  rewrite !app_nil_r, !filter_app, !List_filter_as_filter.
  repeat f_equal; apply list_filter_iff; intros c; apply array_includes_spec.
Qed.

Lemma visible_datacenters_elem (server : ServerPlan) (x : jsstring) :
  x ∈ visible_datacenters toLowerCase server <->
  x ∈ map OvhConstants.code OvhConstants.OVH_DATACENTERS
  /\ exists d, Some d ∈ plan_datacenters server
               /\ (toLowerCase d = js "ynm" /\ x = js "mum"
                   \/ toLowerCase d <> js "ynm" /\ x = toLowerCase d).
Proof.
  unfold visible_datacenters. cbv zeta.
  rewrite Set_values_first_occurrences, first_occurrences_elem,
    List_filter_elem, array_includes_spec, list_elem_of_omap.
  rewrite !map_as_fmap.
  split.
  - intros [(y & Hy & Hx) Hv]. split; [exact Hv|].
    apply list_elem_of_fmap in Hy as (z & -> & Hz).
    apply list_elem_of_fmap in Hz as (d & -> & Hd).
    destruct d as [d|]; cbn [fmap option_fmap option_map] in Hx.
    + exists d. split; [exact Hd|].
      case_bool_decide as Hynm.
      * left. split; [congruence|].
        change (Some (js "mum") = Some x) in Hx. congruence.
      * right. split; [congruence|].
        destruct (toLowerCase d); [discriminate Hx | congruence].
    + rewrite bool_decide_eq_false_2 in Hx by discriminate. discriminate Hx.
  - intros [Hv (d & Hd & Hcase)]. split; [|exact Hv].
    exists (if bool_decide (toLowerCase <$> Some d = Some (js "ynm"))
            then Some (js "mum") else toLowerCase <$> Some d).
    split.
    + apply list_elem_of_fmap. exists (toLowerCase <$> Some d).
      split; [reflexivity|]. apply list_elem_of_fmap. exists (Some d).
      split; [reflexivity | exact Hd].
    + cbn [fmap option_fmap option_map].
      destruct Hcase as [[Hy ->] | [Hy ->]].
      * rewrite bool_decide_eq_true_2 by congruence. reflexivity.
      * rewrite bool_decide_eq_false_2 by congruence.
        destruct (toLowerCase d) eqn:E; [|reflexivity].
        exfalso. revert Hv. clear.
        refine (bool_decide_unpack _ _); vm_compute; exact I.
Qed.
(** X28: the datacenters offered for a plan are, each once, the known
    codes of the table that the catalogue lists for the plan, read in
    lower case and with [ynm] renamed [mum]: a plan the catalogue lists
    at [ynm] is offered [mum], and [ynm] itself never appears.  The
    picker shows every offered datacenter exactly once, under its region,
    with no empty region block. *)
Theorem visible_datacenters_shown (server : ServerPlan) :
  let v := visible_datacenters toLowerCase server in
  NoDup v
  /\ Forall (fun d => d ∈ map OvhConstants.code OvhConstants.OVH_DATACENTERS) v
  /\ (forall x, x ∈ v <->
        x ∈ map OvhConstants.code OvhConstants.OVH_DATACENTERS
        /\ exists d, Some d ∈ plan_datacenters server
                     /\ (toLowerCase d = js "ynm" /\ x = js "mum"
                         \/ toLowerCase d <> js "ynm" /\ x = toLowerCase d))
  /\ (forall d, Some d ∈ plan_datacenters server ->
        toLowerCase d = js "ynm" -> js "mum" ∈ v)
  /\ (js "ynm" ∉ v)
  /\ concat (map snd (region_blocks (Some v))) ≡ₚ v
  /\ Forall (fun b => snd b <> []) (region_blocks (Some v)).
Proof.
  cbn zeta.
  assert (Hnd : NoDup (visible_datacenters toLowerCase server)).
  { unfold visible_datacenters. rewrite Set_values_first_occurrences.
    apply first_occurrences_NoDup. }
  assert (Hvalid : Forall (fun d => d ∈ map OvhConstants.code
                                         OvhConstants.OVH_DATACENTERS)
                          (visible_datacenters toLowerCase server)).
  { apply list.Forall_forall. intros d Hd.
    apply visible_datacenters_elem in Hd as [Hd _]. exact Hd. }
  split; [exact Hnd|]. split; [exact Hvalid|].
  split; [apply visible_datacenters_elem|]. split.
  { intros d Hd Hy. apply visible_datacenters_elem.
    split; [refine (bool_decide_unpack _ _); vm_compute; exact I|].
    exists d. split; [exact Hd|]. left. split; [exact Hy | reflexivity]. }
  split.
  { intros H. eapply list.Forall_forall in Hvalid; [|exact H].
    apply ynm_not_in_table, Hvalid. }
  split.
  - rewrite region_blocks_concat. apply NoDup_Permutation.
    + apply NoDup_filter, region_codes_NoDup.
    + exact Hnd.
    + intros x. rewrite list_elem_of_filter. split; [tauto|]. intros Hx.
      split; [exact Hx|].
      eapply list.Forall_forall in Hvalid; [|exact Hx].
      eapply (proj1 (list.Forall_forall _ _) table_codes_in_regions), Hvalid.
  - apply list.Forall_forall. intros b Hb. unfold region_blocks in Hb.
    apply List_filter_elem in Hb as [_ Hb]. destruct (snd b); [|discriminate].
    discriminate Hb.
Qed.

Lemma option_group_named (o : ServerOption) :
  option_group toLowerCase o ∈ group_names.
Proof.
  unfold option_group. cbv zeta.
  repeat match goal with
         | |- context [if ?b then _ else _] => destruct b
         end;
    refine (bool_decide_unpack _ _); vm_compute; exact I.
Qed.

Lemma Map_set_present_keys {V} (k : jsstring) (v : V) (m : list (jsstring * V)) :
  k ∈ m.*1 -> (Map_set k v m).*1 = m.*1.
Proof.
  intros Hk. rewrite Map_set_keys. unfold Map_has.
  destruct (Map_get k m) eqn:E; [reflexivity|].
  apply Map_get_None_keys in E. contradiction.
Qed.

Lemma build_from (opts done : list ServerOption)
    (m : list (jsstring * list ServerOption)) :
  m.*1 = group_names ->
  (forall g, g ∈ group_names ->
     Map_get g m = Some (filter (fun o => option_group toLowerCase o = g) done)) ->
  let r := fold_left (push_option toLowerCase) opts m in
  r.*1 = group_names
  /\ (forall g, g ∈ group_names ->
        Map_get g r
        = Some (filter (fun o => option_group toLowerCase o = g) (done ++ opts)))
  /\ concat r.*2 ≡ₚ concat m.*2 ++ opts.
Proof.
  revert done m. induction opts as [|o opts IH]; intros done m Hk Hg; cbn zeta.
  - cbn [fold_left]. rewrite !app_nil_r. auto.
  - cbn [fold_left].
    pose proof (option_group_named o) as Hin.
    assert (Hget := Hg _ Hin).
    assert (Hpush : push_option toLowerCase m o
                    = Map_set (option_group toLowerCase o)
                        (filter (fun o' => option_group toLowerCase o'
                                           = option_group toLowerCase o) done
                         ++ [o]) m).
    { unfold push_option. rewrite Hget. reflexivity. }
    destruct (IH (done ++ [o]) (push_option toLowerCase m o)) as (H1 & H2 & H3).
    + rewrite Hpush, Map_set_present_keys; [exact Hk | rewrite Hk; exact Hin].
    + intros g Hgn. rewrite Hpush, Map_get_set, filter_app, filter_cons,
        filter_nil.
      destruct (decide (option_group toLowerCase o = g)) as [<-|Hne];
        [reflexivity|]. rewrite app_nil_r. apply Hg, Hgn.
    + split; [exact H1|]. split.
      * intros g Hgn. rewrite H2 by exact Hgn. rewrite <- app_assoc. reflexivity.
      * rewrite H3, Hpush, (Map_set_concat _ _ [o] m Hget), <- app_assoc.
        reflexivity.
Qed.

Lemma build_groups (opts : list ServerOption) :
  (buildOptionGroups toLowerCase opts).*1 = group_names
  /\ (forall g, g ∈ group_names ->
        Map_get g (buildOptionGroups toLowerCase opts)
        = Some (filter (fun o => option_group toLowerCase o = g) opts))
  /\ concat (buildOptionGroups toLowerCase opts).*2 ≡ₚ opts.
Proof.
  unfold buildOptionGroups.
  destruct (build_from opts [] (map (fun g => (g, [])) group_names))
    as (H1 & H2 & H3).
  - reflexivity.
  - intros g Hg. rewrite filter_nil.
    apply Map_elem_get; [refine (bool_decide_unpack _ _); vm_compute; exact I|].
    rewrite list_elem_of_In. apply in_map_iff. exists g.
    split; [reflexivity | rewrite <- list_elem_of_In; exact Hg].
  - split; [exact H1|]. split; [exact H2 | exact H3].
Qed.

(** X29: the option groups are a partition of the options: the six groups
    always appear, in their fixed order, each holding, in the order given,
    exactly the options classified under it, so that every option lands in
    one group and one only. *)
Theorem buildOptionGroups_partition (opts : list ServerOption) :
  let gs := buildOptionGroups toLowerCase opts in
  map fst gs = group_names
  /\ (forall g, g ∈ group_names ->
        Map_get g gs
        = Some (filter (fun o => option_group toLowerCase o = g) opts))
  /\ concat (map snd gs) ≡ₚ opts
  /\ (forall o, option_group toLowerCase o ∈ group_names).
Proof.
  cbn zeta. destruct (build_groups opts) as (H1 & H2 & H3).
  rewrite !map_as_fmap. split; [exact H1|]. split; [exact H2|].
  split; [exact H3 | apply option_group_named].
Qed.

Lemma delete_indexOf (l : list jsstring) (x : jsstring) (i : nat) :
  NoDup l -> indexOf l x = Some i -> delete i l = filter (fun y => y <> x) l.
Proof.
  intros Hnd. revert i. induction Hnd as [|y l Hy Hnd IH]; intros i;
    cbn [indexOf]; [discriminate|].
  unfold jsstring_eqb. destruct (decide (y = x)) as [->|Hne].
  - rewrite bool_decide_eq_true_2 by reflexivity. intros [= <-].
    cbn [delete list_delete].
    rewrite filter_cons, decide_False by (intros H; apply H; reflexivity).
    symmetry. apply filter_ne_id, Hy.
  - rewrite bool_decide_eq_false_2 by exact Hne.
    destruct (indexOf l x) as [j|] eqn:E;
      cbn [fmap option_fmap option_map]; [|discriminate]. intros [= <-].
    cbn [delete list_delete]. rewrite filter_cons, decide_True by exact Hne.
    f_equal. apply IH. reflexivity.
Qed.

(** X30: choosing an option that was not selected puts it last and drops
    the selected options of the same group (among the hardware options
    offered for the plan), keeping every other selected option in place:
    within a group only the latest choice stays.  Choosing an option that
    is selected removes it and keeps the rest. *)
Theorem toggleOptionValue_exclusive (server : ServerPlan) (v g : jsstring)
    (prev : list jsstring) (Hg : g ∈ group_names) (Hnd : NoDup prev) :
  let offered := filterHardwareOptions toLowerCase
                   (Some (default [] (availableOptions server))) in
  let same u := exists o, o ∈ offered /\ option_group toLowerCase o = g
                          /\ value o = u in
  let next := toggleOptionValue toLowerCase (Some server) v (Some g) prev in
  (v ∉ prev ->
     last next = Some v
     /\ (forall u, u ∈ next <-> u = v \/ (u ∈ prev /\ ~ same u))
     /\ exists kept, next = kept ++ [v] /\ kept `sublist_of` prev)
  /\ (v ∈ prev ->
      next = filter (fun u => u <> v) prev /\ v ∉ next).
Proof.
  cbn zeta. unfold toggleOptionValue. split.
  - intros Hv. rewrite (proj2 (indexOf_None prev v) Hv).
    assert (Hgne : exists c g', g = c :: g').
    { destruct g; [|eauto]. exfalso. revert Hg. clear.
      intros H. assert (Hd : [] ∉ group_names)
        by (refine (bool_decide_unpack _ _); vm_compute; exact I).
      contradiction. }
    destruct Hgne as (c & g' & ->).
    destruct (build_groups
                (filterHardwareOptions toLowerCase
                   (Some (default [] (availableOptions server)))))
      as (_ & Hget & _).
    rewrite (Hget _ Hg). cbn [from_option Datatypes.id].
    split; [apply last_snoc|]. split.
    + intros u. rewrite elem_of_app, list_elem_of_singleton, List_filter_elem.
      rewrite negb_true_iff. unfold array_includes.
      rewrite bool_decide_eq_false, map_as_fmap, list_elem_of_fmap.
      split.
      * intros [[Hu Hns]|Hu]; [right|left; exact Hu]. split; [exact Hu|].
        intros (o & Ho & Hog & Hval). apply Hns. exists o.
        split; [symmetry; exact Hval|].
        apply list_elem_of_filter. split; assumption.
      * intros [->|[Hu Hns]]; [right; reflexivity|left]. split; [exact Hu|].
        intros (o & Hval & Ho).
        apply list_elem_of_filter in Ho as [Hog Ho]. apply Hns. exists o. auto.
    + eexists. split; [reflexivity | apply List_filter_sublist].
  - intros Hv. destruct (indexOf_elem prev v Hv) as [i Hi]. rewrite Hi.
    unfold splice_out. rewrite (delete_indexOf _ _ _ Hnd Hi).
    split; [reflexivity|]. intros H. apply list_elem_of_filter in H as [H _].
    contradiction.
Qed.
End Offer.

Section OfferSample.
Import QueuePage Shape MoreSamples.

Lemma toggleOptionValue_exclusive_witness :
  toggleOptionValue ascii_lower (Some sample_plan) (js "ram-64g-ecc-2133")
    (Some (js "内存"))
    [js "ram-32g-ecc-2133"; js "softraid-2xnvme"; js "softraid-2x480ssd"]
  = [js "softraid-2xnvme"; js "ram-64g-ecc-2133"]
  /\ last (toggleOptionValue ascii_lower (Some sample_plan)
             (js "ram-64g-ecc-2133") (Some (js "内存"))
             [js "ram-32g-ecc-2133"; js "softraid-2xnvme";
              js "softraid-2x480ssd"])
     = Some (js "ram-64g-ecc-2133").
Proof.
  split; [reflexivity|].
  refine (proj1 (proj1 (toggleOptionValue_exclusive ascii_lower sample_plan
                          (js "ram-64g-ecc-2133") (js "内存")
                          [js "ram-32g-ecc-2133"; js "softraid-2xnvme";
                           js "softraid-2x480ssd"]
                          _ _) _));
    refine (bool_decide_unpack _ _); vm_compute; exact I.
Defined.

Example visible_datacenters_sample :
  visible_datacenters ascii_lower sample_plan = [js "gra"; js "mum"; js "bhs"]
  /\ region_blocks (Some (visible_datacenters ascii_lower sample_plan))
     = [ (js "欧洲", [js "gra"]); (js "北美", [js "bhs"]);
         (js "亚太", [js "mum"]) ].
Proof. split; reflexivity. Qed.

Example buildOptionGroups_sample :
  map (fun kv => (fst kv, map value (snd kv)))
      (buildOptionGroups ascii_lower
         (filterHardwareOptions ascii_lower (availableOptions sample_plan)))
  = [ (js "CPU/处理器", []);
      (js "内存", [js "ram-32g-ecc-2133"; js "ram-64g-ecc-2133";
                   js "softraid-2x480ssd"]);
      (js "存储", [js "softraid-2xnvme"]);
      (js "带宽/网络", []); (js "vRack内网", []); (js "其他", []) ].
Proof. reflexivity. Qed.
End OfferSample.
